(** * Amazon Ads dashboard: metrics, aggregation, selection and record serving

    A shallow embedding of the arithmetic and filtering code of the
    dashboard (app/pages/utils/metrics.py, app/pages/utils/model.py,
    app/pages/Drilldowns.py, app/pages/Overview.py,
    app/pages/Recommendations.py, server/services/data_service.py).

    Python [float] and NumPy [float64] are IEEE binary64 numbers: they are
    modelled by Rocq's primitive floats, so NaN, signed zeros and infinities
    are the machine's.  Exceptions are modelled by an error monad. *)

From Stdlib Require Import ZArith Floats Bool List Lia.
From stdpp Require Import base option list sorting gmap strings pretty.

Set Warnings "-inexact-float".
Set Default Proof Using "Type".

(** ** Python values, exceptions and the operators the code uses *)

Module Py.

Inductive exn : Type :=
  | ZeroDivisionError
  | OverflowError
  | TypeError
  | ValueError
  | KeyError (key : string)
  | FileNotFoundError (name : string).

Inductive result (A : Type) : Type :=
  | Ok (a : A)
  | Raise (e : exn).
Arguments Ok {A} a.
Arguments Raise {A} e.

#[global] Instance result_ret : MRet result := λ A a, Ok a.
#[global] Instance result_bind : MBind result :=
  λ A B f m, match m with Ok a => f a | Raise e => Raise e end.

(** Code that also reads and writes objects threads a state of type [S]. *)
Definition M (S A : Type) : Type := S → result A * S.

#[global] Instance M_ret {S} : MRet (M S) := λ A a st, (Ok a, st).
#[global] Instance M_bind {S} : MBind (M S) :=
  λ A B f m st,
    match m st with
    | (Ok a, st') => f a st'
    | (Raise e, st') => (Raise e, st')
    end.

Definition raise {S A} (e : exn) : M S A := λ st, (Raise e, st).

Definition lift {S A} (r : result A) : M S A := λ st, (r, st).

Fixpoint for_each {S A} (body : A → M S ()) (l : list A) : M S () :=
  match l with
  | [] => mret ()
  | x :: l => body x;; for_each body l
  end.

(** What [totals.get(key, 0)] can hand back: [None], a Python or NumPy
    number, or (when [totals] is a DataFrame) a whole column. *)
Inductive value : Type :=
  | VNone
  | VInt (n : Z)
  | VFloat (x : float)
  | VSeries (xs : list float).

(** [bool(v)], as evaluated by [v or w].  NaN is truthy, both zeros are
    falsy; pandas refuses to give a Series a truth value. *)
Definition truth (v : value) : result bool :=
  match v with
  | VNone => Ok false
  | VInt n => Ok (negb (n =? 0)%Z)
  | VFloat x => Ok (negb (x =? 0)%float)
  | VSeries _ => Raise ValueError
  end.

(** [v or w] *)
Definition or_ (v w : value) : result value :=
  b ← truth v; mret (if b : bool then v else w).

(** [float(n)] for a Python int: the nearest binary64 (ties to even), and
    OverflowError when that would be an infinity. *)
Definition float_of_int (n : Z) : result float :=
  match binary_normalize prec emax n 0 false with
  | S754_infinity _ => Raise OverflowError
  | sf => Ok (SF2Prim sf)
  end.

(** [float(v)] *)
Definition float_ (v : value) : result float :=
  match v with
  | VNone => Raise TypeError
  | VInt n => float_of_int n
  | VFloat x => Ok x
  | VSeries _ => Raise TypeError
  end.

(** [x / y] on Python floats: a zero divisor raises. *)
Definition truediv (x y : float) : result float :=
  if (y =? 0)%float then Raise ZeroDivisionError else Ok (x / y)%float.

Lemma run_bind {S A B} (m : M S A) (f : A → M S B) st a st' :
  m st = (Ok a, st') → (m ≫= f) st = f a st'.
Proof. intros H. unfold mbind, M_bind. by rewrite H. Qed.

Lemma run_bind_raise {S A B} (m : M S A) (f : A → M S B) st e st' :
  m st = (Raise e, st') → (m ≫= f) st = (Raise e, st').
Proof. intros H. unfold mbind, M_bind. by rewrite H. Qed.

Lemma bind_Ok {A B} (m : result A) (f : A → result B) b :
  m ≫= f = Ok b ↔ ∃ a, m = Ok a ∧ f a = Ok b.
Proof.
  destruct m as [a|e]; simpl.
  - split; [eauto | intros (a' & [= ->] & H); exact H].
  - split; [discriminate | intros (a' & [=] & _)].
Qed.


Lemma float_of_int_0 : float_of_int 0 = Ok 0%float.
Proof. reflexivity. Qed.




End Py.

(** ** Order facts about binary64 numbers, from their specification *)

Module FloatOrder.

Lemma SFcompare_antisym x y :
  SFcompare y x = option_map CompOpp (SFcompare x y).
Proof.
  destruct x as [sx|sx| |sx mx ex], y as [sy|sy| |sy my ey]; simpl;
    try reflexivity; try (by destruct sx); try (by destruct sy);
    try (by destruct sx, sy).
  destruct sx, sy; simpl; try reflexivity.
  - rewrite (Z.compare_antisym ey ex). destruct (ey ?= ex)%Z; simpl; try reflexivity.
    f_equal. rewrite CompOpp_involutive.
    by rewrite Pos.compare_cont_antisym.
  - rewrite (Z.compare_antisym ey ex). destruct (ey ?= ex)%Z; simpl; try reflexivity.
    f_equal. by rewrite Pos.compare_cont_antisym.
Qed.





Lemma ltb_asym x y : (x <? y)%float = true → (y <? x)%float = false.
Proof.
  rewrite !FloatAxioms.ltb_spec. unfold SFltb.
  rewrite (SFcompare_antisym (Prim2SF x) (Prim2SF y)).
  by destruct (SFcompare _ _) as [[]|].
Qed.

Lemma leb_not_nan x y : (x <=? y)%float = true → is_nan x = false ∧ is_nan y = false.
Proof.
  unfold is_nan. rewrite FloatAxioms.leb_spec, !FloatAxioms.eqb_spec. unfold SFleb, SFeqb.
  destruct (Prim2SF x) as [sx|sx| |sx mx ex], (Prim2SF y) as [sy|sy| |sy my ey];
    simpl; try discriminate; intros _;
    repeat match goal with s : bool |- _ => destruct s end; simpl;
    rewrite ?Z.compare_refl, ?Pos.compare_cont_refl; simpl; auto.
Qed.
End FloatOrder.

(** ** app/pages/utils/metrics.py *)

Module Metrics.
Import Py.

(** [float(totals.get(key, 0) or 0)] *)
Definition field (totals : gmap string value) (key : string) : result float :=
  v ← or_ (default (VInt 0) (totals !! key)) (VInt 0); float_ v.

Definition compute_kpis_from_totals (totals : gmap string value)
  : result (gmap string float) :=
  imp ← field totals "impressions";
  clk ← field totals "clicks";
  cost ← field totals "cost";
  ords ← field totals "orders";
  sales ← field totals "sales";
  ctr ← (if (imp =? 0)%float then Ok nan else truediv clk imp);
  cpc ← (if (clk =? 0)%float then Ok nan else truediv cost clk);
  cvr ← (if (clk =? 0)%float then Ok nan else truediv ords clk);
  acos ← (if (sales =? 0)%float then Ok nan else truediv cost sales);
  roas ← (if (cost =? 0)%float then Ok nan else truediv sales cost);
  mret (<["ctr" := ctr]> (<["cpc" := cpc]> (<["cvr" := cvr]>
         (<["acos" := acos]> (<["roas" := roas]> ∅))))).

(** The ratio of the data model: undefined (NaN) when the denominator is
    exactly zero, the quotient otherwise. *)
Definition ratio (num den : float) : float :=
  if (den =? 0)%float then nan else (num / den)%float.

Definition undefined (x : float) : Prop := is_nan x = true.


Lemma guarded_truediv num den :
  (if (den =? 0)%float then Ok nan else truediv num den) = Ok (ratio num den).
Proof. unfold truediv, ratio. by destruct (den =? 0)%float. Qed.




Lemma compute_kpis_from_totals_fields totals imp clk cost ords sales :
  field totals "impressions" = Ok imp →
  field totals "clicks" = Ok clk →
  field totals "cost" = Ok cost →
  field totals "orders" = Ok ords →
  field totals "sales" = Ok sales →
  compute_kpis_from_totals totals =
    Ok (<["ctr" := ratio clk imp]> (<["cpc" := ratio cost clk]>
       (<["cvr" := ratio ords clk]> (<["acos" := ratio cost sales]>
       (<["roas" := ratio sales cost]> ∅))))).
Proof.
  intros Hi Hc Hk Ho Hs. unfold compute_kpis_from_totals.
  rewrite Hi, Hc, Hk, Ho, Hs. simpl.
  by rewrite !guarded_truediv.
Qed.

Lemma compute_kpis_from_totals_Ok totals d :
  compute_kpis_from_totals totals = Ok d →
  ∃ imp clk cost ords sales,
    field totals "impressions" = Ok imp ∧ field totals "clicks" = Ok clk ∧
    field totals "cost" = Ok cost ∧ field totals "orders" = Ok ords ∧
    field totals "sales" = Ok sales.
Proof.
  unfold compute_kpis_from_totals. intros H.
  apply bind_Ok in H as (imp & Hi & H). apply bind_Ok in H as (clk & Hc & H).
  apply bind_Ok in H as (cost & Hk & H). apply bind_Ok in H as (ords & Ho & H).
  apply bind_Ok in H as (sales & Hs & _).
  by exists imp, clk, cost, ords, sales.
Qed.


Lemma field_float totals key x :
  totals !! key = Some (VFloat x) →
  field totals key = Ok (if (x =? 0)%float then 0%float else x).
Proof. intros H. unfold field. rewrite H. simpl. by destruct (x =? 0)%float. Qed.

Lemma compute_kpis_from_totals_inv totals d :
  compute_kpis_from_totals totals = Ok d →
  ∃ imp clk cost ords sales,
    (field totals "impressions" = Ok imp ∧ field totals "clicks" = Ok clk ∧
     field totals "cost" = Ok cost ∧ field totals "orders" = Ok ords ∧
     field totals "sales" = Ok sales) ∧
    d !! "ctr" = Some (ratio clk imp) ∧ d !! "cpc" = Some (ratio cost clk) ∧
    d !! "cvr" = Some (ratio ords clk) ∧ d !! "acos" = Some (ratio cost sales) ∧
    d !! "roas" = Some (ratio sales cost).
Proof.
  intros H.
  destruct (compute_kpis_from_totals_Ok _ _ H)
    as (imp & clk & cost & ords & sales & Hi & Hc & Hk & Ho & Hs).
  rewrite (compute_kpis_from_totals_fields _ _ _ _ _ _ Hi Hc Hk Ho Hs) in H.
  injection H as <-. exists imp, clk, cost, ords, sales.
  split; [done|]. by repeat split.
Qed.

Lemma ratio_undefined num den : (den =? 0)%float = true → ratio num den = nan.
Proof. intros H. unfold ratio. by rewrite H. Qed.


(** A day with impressions but no click, no order and no sale. *)
Definition totals_no_click : gmap string value :=
  <["impressions" := VFloat 100]> (<["clicks" := VFloat 0]>
    (<["cost" := VFloat 0]> (<["sales" := VNone]> ∅))).


(** C4 as the spec states it fails: with clicks = 0 and impressions = 100
    the click-through rate is 0, a defined number. *)
Lemma ctr_defined_without_clicks :
  ¬ (∀ totals d clk,
       compute_kpis_from_totals totals = Ok d →
       field totals "clicks" = Ok clk → (clk =? 0)%float = true →
       ∃ ctr cpc cvr, d !! "ctr" = Some ctr ∧ d !! "cpc" = Some cpc ∧
         d !! "cvr" = Some cvr ∧ undefined ctr ∧ undefined cpc ∧ undefined cvr).
Proof.
  intros H.
  destruct (H totals_no_click _ 0%float eq_refl eq_refl eq_refl)
    as (ctr & cpc & cvr & Hctr & _ & _ & Hu & _).
  vm_compute in Hctr. injection Hctr as <-. vm_compute in Hu. discriminate.
Qed.

(** C4, amended: whenever compute_kpis_from_totals returns, cpc and cvr are
    undefined if clicks = 0, ctr is undefined if impressions = 0, roas is
    undefined if cost = 0 and acos is undefined if sales = 0. *)
Theorem kpis_undefined_on_zero_denominator (totals : gmap string value) d :
  compute_kpis_from_totals totals = Ok d →
  ∃ imp clk cost sales ctr cpc cvr acos roas,
    (field totals "impressions" = Ok imp ∧ field totals "clicks" = Ok clk ∧
     field totals "cost" = Ok cost ∧ field totals "sales" = Ok sales) ∧
    (d !! "ctr" = Some ctr ∧ d !! "cpc" = Some cpc ∧ d !! "cvr" = Some cvr ∧
     d !! "acos" = Some acos ∧ d !! "roas" = Some roas) ∧
    ((clk =? 0)%float = true → undefined cpc ∧ undefined cvr) ∧
    ((imp =? 0)%float = true → undefined ctr) ∧
    ((cost =? 0)%float = true → undefined roas) ∧
    ((sales =? 0)%float = true → undefined acos).
Proof.
  intros H.
  destruct (compute_kpis_from_totals_inv _ _ H)
    as (imp & clk & cost & ords & sales & (Hi & Hc & Hk & Ho & Hs) & Hd).
  exists imp, clk, cost, sales. do 5 eexists.
  split; [done|]. split; [exact Hd|].
  unfold undefined.
  split; [|split; [|split]]; intros Hz; by rewrite !(ratio_undefined _ _ Hz).
Qed.

Definition kpis_no_click : gmap string float :=
  <["ctr" := 0%float]> (<["cpc" := nan]> (<["cvr" := nan]>
    (<["acos" := nan]> (<["roas" := nan]> ∅)))).

Lemma kpis_undefined_on_zero_denominator_witness :
  ∃ imp clk cost sales ctr cpc cvr acos roas,
    (field totals_no_click "impressions" = Ok imp ∧
     field totals_no_click "clicks" = Ok clk ∧
     field totals_no_click "cost" = Ok cost ∧
     field totals_no_click "sales" = Ok sales) ∧
    (kpis_no_click !! "ctr" = Some ctr ∧ kpis_no_click !! "cpc" = Some cpc ∧
     kpis_no_click !! "cvr" = Some cvr ∧ kpis_no_click !! "acos" = Some acos ∧
     kpis_no_click !! "roas" = Some roas) ∧
    ((clk =? 0)%float = true → undefined cpc ∧ undefined cvr) ∧
    ((imp =? 0)%float = true → undefined ctr) ∧
    ((cost =? 0)%float = true → undefined roas) ∧
    ((sales =? 0)%float = true → undefined acos).
Proof.
  exact (kpis_undefined_on_zero_denominator totals_no_click kpis_no_click eq_refl).
Defined.

End Metrics.

(** ** The pandas objects the pages and the service work on *)

Module Pandas.
Import Py.

#[global] Instance float_eq_dec : EqDecision float.
Proof.
  intros x y. destruct (PrimFloat.Leibniz.eqb x y) eqn:E.
  - left. by apply FloatAxioms.Leibniz.eqb_spec.
  - right. intros H. apply FloatAxioms.Leibniz.eqb_spec in H. congruence.
Defined.

(** One entry of a table.  [CNull] is [None] (and NaT in a datetime
    column); a missing number is [CFloat nan]; [CTime] is a Timestamp,
    counted on a linear time axis. *)
Inductive cell : Type :=
  | CNull
  | CBool (b : bool)
  | CInt (n : Z)
  | CFloat (x : float)
  | CStr (s : string)
  | CTime (t : Z).

#[global] Instance cell_eq_dec : EqDecision cell.
Proof. solve_decision. Defined.

(** [pd.isna] *)
Definition isna (c : cell) : bool :=
  match c with
  | CNull => true
  | CFloat x => is_nan x
  | _ => false
  end.

(** The float64 reading of a numeric entry; an entry that is no number
    reads as missing. *)
Definition as_float (c : cell) : float :=
  match c with
  | CFloat x => x
  | CInt n => SF2Prim (binary_normalize prec emax n 0 false)
  | CBool b => if b then 1%float else 0%float
  | _ => nan
  end.

(** A row maps column names to entries; a frame keeps the column order and
    the rows in index order. *)
Abbreviation row := (gmap string cell).

Record frame : Type := Frame { columns : list string; rows : list row }.

(** [r[c]] *)
Definition at_ (r : row) (c : string) : cell := default CNull (r !! c).

Definition num (r : row) (c : string) : float := as_float (at_ r c).

Definition has_column (df : frame) (c : string) : bool :=
  bool_decide (c ∈ columns df).

(** [df[c] = f(row)], element by element: a new column goes last. *)
Definition setitem (c : string) (f : row → cell) (df : frame) : frame :=
  Frame (if has_column df c then columns df else columns df ++ [c])
        ((λ r, <[c := f r]> r) <$> rows df).

(** [Series.sum()]: missing entries are skipped, the empty sum is 0. *)
Definition nansum (xs : list float) : float :=
  foldl (λ acc x, if is_nan x then acc else (acc + x)%float) 0%float xs.

Definition column_sum (c : string) (rs : list row) : float :=
  nansum ((λ r, num r c) <$> rs).

(** [np.where(df[den] == 0, np.nan, df[num] / df[den])], stored as [df[name]]. *)
Definition where_ratio (name n d : string) (df : frame) : frame :=
  setitem name (λ r, CFloat (if (num r d =? 0)%float then nan
                             else (num r n / num r d)%float)) df.

Definition counters : list string :=
  ["impressions"; "clicks"; "cost"; "orders"; "sales"].

(** *** [df.groupby(group_cols, as_index=False).agg(<the five sums>)] *)

Section groupby.
(** pandas returns the groups in the order of their keys; that order on
    key tuples is pandas' and is a parameter here. *)
Context (key_le : list cell → list cell → bool).

Definition key_of (group_cols : list string) (r : row) : list cell :=
  at_ r <$> group_cols.

Definition key_notna (k : list cell) : bool := forallb (λ c, negb (isna c)) k.

(** The distinct keys with no missing component (dropna), in key order. *)
Definition group_keys (group_cols : list string) (rs : list row) : list (list cell) :=
  merge_sort (λ a b, key_le a b)
    (remove_dups (filter (λ k, key_notna k) (key_of group_cols <$> rs))).

Definition members (group_cols : list string) (k : list cell) (rs : list row)
  : list row :=
  filter (λ r, key_of group_cols r = k) rs.

Definition key_row (group_cols : list string) (k : list cell) : row :=
  list_to_map (zip group_cols k).

Definition sum_row (group_cols : list string) (k : list cell) (ms : list row) : row :=
  <["sales" := CFloat (column_sum "sales" ms)]>
  (<["orders" := CFloat (column_sum "orders" ms)]>
  (<["cost" := CFloat (column_sum "cost" ms)]>
  (<["clicks" := CFloat (column_sum "clicks" ms)]>
  (<["impressions" := CFloat (column_sum "impressions" ms)]>
     (key_row group_cols k))))).

Definition first_missing (df : frame) (cs : list string) : option string :=
  head (filter (λ c, c ∉ columns df) cs).

Definition groupby_sum (group_cols : list string) (df : frame) : result frame :=
  if bool_decide (group_cols = []) then Raise ValueError
  else match first_missing df (group_cols ++ counters) with
       | Some c => Raise (KeyError c)
       | None =>
           if bool_decide (NoDup (group_cols ++ counters)) then
             Ok (Frame (group_cols ++ counters)
                   ((λ k, sum_row group_cols k (members group_cols k (rows df)))
                      <$> group_keys group_cols (rows df)))
           else Raise ValueError
       end.

End groupby.

(** [df[cols]] *)
Definition select (cols : list string) (df : frame) : result frame :=
  match first_missing df cols with
  | Some c => Raise (KeyError c)
  | None => Ok (Frame cols ((λ r : row, filter (λ kv, kv.1 ∈ cols) r) <$> rows df))
  end.

(** [df[mask]] for a mask computed row by row *)
Definition getitem_mask (mask : row → bool) (df : frame) : frame :=
  Frame (columns df) (filter (λ r, mask r) (rows df)).

(** [df[c] = values] for an array of floats: positional, and the lengths
    must agree. *)
Definition setitem_values (c : string) (values : list float) (df : frame)
  : result frame :=
  if (length values =? length (rows df))%nat
  then Ok (Frame (if has_column df c then columns df else columns df ++ [c])
                 (zip_with (λ (r : row) v, <[c := CFloat v]> r) (rows df) values))
  else Raise ValueError.

(** *** Objects and references

    A DataFrame is a mutable object: variables hold references into a
    store, [.copy()] and indexing make new objects, [df[c] = ...] writes
    into the object [df] refers to. *)

Definition empty_frame : frame := Frame [] [].

Definition new (f : frame) : M (list frame) nat :=
  λ h, (Ok (length h), h ++ [f]).

Definition get (l : nat) : M (list frame) frame :=
  λ h, (Ok (default empty_frame (h !! l)), h).

Definition put (l : nat) (f : frame) : M (list frame) () :=
  λ h, (Ok (), <[l := f]> h).

Lemma get_run (h : list frame) l f : h !! l = Some f → get l h = (Ok f, h).
Proof. intros H. unfold get. by rewrite H. Qed.

Lemma at_insert_eq (r : row) c v : at_ (<[c := v]> r) c = v.
Proof. unfold at_. by rewrite lookup_insert_eq. Qed.

Lemma at_insert_ne (r : row) c c' v : c ≠ c' → at_ (<[c := v]> r) c' = at_ r c'.
Proof. intros H. unfold at_. by rewrite lookup_insert_ne. Qed.

Lemma num_insert_eq (r : row) c x : num (<[c := CFloat x]> r) c = x.
Proof. unfold num. by rewrite at_insert_eq. Qed.

Lemma num_insert_ne (r : row) c c' v : c ≠ c' → num (<[c := v]> r) c' = num r c'.
Proof. intros H. unfold num. by rewrite at_insert_ne. Qed.

Lemma rows_setitem c f df :
  rows (setitem c f df) = (λ r, <[c := f r]> r) <$> rows df.
Proof. done. Qed.

Lemma group_keys_elem key_le group_cols rs k :
  k ∈ group_keys key_le group_cols rs ↔
  key_notna k = true ∧ ∃ r, r ∈ rs ∧ key_of group_cols r = k.
Proof.
  unfold group_keys. rewrite merge_sort_Permutation, elem_of_remove_dups.
  rewrite list_elem_of_filter, list_elem_of_fmap.
  split.
  - intros [Hk (r & -> & Hr)]. split; [by apply Is_true_true|]. eauto.
  - intros [Hk (r & Hr & <-)]. split; [by apply Is_true_true|]. eauto.
Qed.



Lemma first_missing_None df cs :
  (∀ c, c ∈ cs → c ∈ columns df) → first_missing df cs = None.
Proof.
  intros Hcols. unfold first_missing. apply head_None.
  destruct (filter _ _) as [|c l] eqn:E; [done|].
  assert (c ∈ filter (λ c, c ∉ columns df) cs) as Hc by (rewrite E; left).
  apply list_elem_of_filter in Hc as [Hn Hc]. by apply Hcols in Hc.
Qed.

Lemma groupby_sum_returns key_le df group_cols :
  group_cols ≠ [] →
  (∀ c, c ∈ group_cols ++ counters → c ∈ columns df) →
  NoDup (group_cols ++ counters) →
  ∃ agg, groupby_sum key_le group_cols df = Ok agg.
Proof.
  intros Hne Hcols Hnd. unfold groupby_sum.
  rewrite bool_decide_eq_false_2 by done.
  rewrite first_missing_None by done.
  rewrite bool_decide_eq_true_2 by done. by eexists.
Qed.

Lemma groupby_sum_columns key_le df group_cols agg :
  groupby_sum key_le group_cols df = Ok agg → columns agg = group_cols ++ counters.
Proof.
  unfold groupby_sum. intros H.
  destruct (bool_decide (group_cols = [])); [done|].
  destruct (first_missing df (group_cols ++ counters)); [done|].
  destruct (bool_decide (NoDup (group_cols ++ counters))); [|done].
  by injection H as <-.
Qed.

End Pandas.

(** ** app/pages/Drilldowns.py *)

Module Drilldowns.
Import Py Pandas.

Section aggregate.
Context (key_le : list cell → list cell → bool).

Definition aggregate_period (df : frame) (group_cols : list string) : result frame :=
  agg ← groupby_sum key_le group_cols df;
  mret (where_ratio "roas" "sales" "cost"
       (where_ratio "acos" "cost" "sales"
       (where_ratio "cvr" "orders" "clicks"
       (where_ratio "cpc" "cost" "clicks"
       (where_ratio "ctr" "clicks" "impressions" agg))))).

End aggregate.

(** What the data model asks of an aggregate group [g] over the rows [ms]:
    the five summed counters, and the five ratios taken from those sums. *)
Definition carries (ms : list row) (g : row) : Prop :=
  let imp := column_sum "impressions" ms in
  let clk := column_sum "clicks" ms in
  let cost := column_sum "cost" ms in
  let ords := column_sum "orders" ms in
  let sales := column_sum "sales" ms in
  (at_ g "impressions" = CFloat imp ∧ at_ g "clicks" = CFloat clk ∧
   at_ g "cost" = CFloat cost ∧ at_ g "orders" = CFloat ords ∧
   at_ g "sales" = CFloat sales) ∧
  (at_ g "ctr" = CFloat (Metrics.ratio clk imp) ∧
   at_ g "cpc" = CFloat (Metrics.ratio cost clk) ∧
   at_ g "cvr" = CFloat (Metrics.ratio ords clk) ∧
   at_ g "acos" = CFloat (Metrics.ratio cost sales) ∧
   at_ g "roas" = CFloat (Metrics.ratio sales cost)).

(** The two rows of the worked example, under one campaign. *)
Definition example_row (imp clk cost ords sales : float) : row :=
  <["campaign_id" := CStr "A"]> (<["impressions" := CFloat imp]>
  (<["clicks" := CFloat clk]> (<["cost" := CFloat cost]>
  (<["orders" := CFloat ords]> (<["sales" := CFloat sales]> ∅))))).

Definition example_rows : frame :=
  Frame ("campaign_id" :: counters)
        [example_row 100 10 50 2 100; example_row 200 20 50 3 50].

Lemma aggregate_period_rows key_le df group_cols agg :
  aggregate_period key_le df group_cols = Ok agg →
  rows agg =
    (λ k, let s := sum_row group_cols k (members group_cols k (rows df)) in
          let r1 := <["ctr" := CFloat (Metrics.ratio (num s "clicks") (num s "impressions"))]> s in
          let r2 := <["cpc" := CFloat (Metrics.ratio (num r1 "cost") (num r1 "clicks"))]> r1 in
          let r3 := <["cvr" := CFloat (Metrics.ratio (num r2 "orders") (num r2 "clicks"))]> r2 in
          let r4 := <["acos" := CFloat (Metrics.ratio (num r3 "cost") (num r3 "sales"))]> r3 in
          <["roas" := CFloat (Metrics.ratio (num r4 "sales") (num r4 "cost"))]> r4)
    <$> group_keys key_le group_cols (rows df).
Proof.
  unfold aggregate_period, groupby_sum. intros H.
  destruct (bool_decide (group_cols = [])); [done|].
  destruct (first_missing df (group_cols ++ counters)); [done|].
  destruct (bool_decide (NoDup (group_cols ++ counters))); [|done].
  simpl in H. injection H as <-.
  unfold where_ratio. rewrite !rows_setitem. simpl.
  rewrite <- !list_fmap_compose. done.
Qed.

Lemma sum_row_carries group_cols k ms :
  let s := sum_row group_cols k ms in
  let r1 := <["ctr" := CFloat (Metrics.ratio (num s "clicks") (num s "impressions"))]> s in
  let r2 := <["cpc" := CFloat (Metrics.ratio (num r1 "cost") (num r1 "clicks"))]> r1 in
  let r3 := <["cvr" := CFloat (Metrics.ratio (num r2 "orders") (num r2 "clicks"))]> r2 in
  let r4 := <["acos" := CFloat (Metrics.ratio (num r3 "cost") (num r3 "sales"))]> r3 in
  carries ms (<["roas" := CFloat (Metrics.ratio (num r4 "sales") (num r4 "cost"))]> r4).
Proof.
  unfold carries, sum_row. cbv zeta.
  repeat (rewrite num_insert_eq || rewrite num_insert_ne by done).
  repeat (rewrite at_insert_eq || rewrite at_insert_ne by done).
  done.
Qed.




End Drilldowns.

(** ** app/pages/Overview.py: the campaign table of the selected period *)

Module Overview.
Import Py Pandas.

(** A DataFrame handed to a function that calls [totals.get(key, 0)]:
    [DataFrame.get] returns the whole column. *)
Definition as_totals (df : frame) : gmap string value :=
  list_to_map ((λ c, (c, VSeries ((λ r, num r c) <$> rows df))) <$> columns df).

(** Lines 127-131: the five vectorised ratios. *)
Definition with_kpis (camp_agg : frame) : frame :=
  where_ratio "roas" "sales" "cost"
    (where_ratio "acos" "cost" "sales"
    (where_ratio "cvr" "orders" "clicks"
    (where_ratio "cpc" "cost" "clicks"
    (where_ratio "ctr" "clicks" "impressions" camp_agg)))).

(** Lines 133-137: spend share, sales share and their gap. *)
Definition with_shares (camp_agg : frame) : frame :=
  let total_cost := column_sum "cost" (rows camp_agg) in
  let total_sales := column_sum "sales" (rows camp_agg) in
  let camp_agg :=
    setitem "spend_share"
      (λ r, CFloat (if (total_cost =? 0)%float then nan
                    else (num r "cost" / total_cost)%float)) camp_agg in
  let camp_agg :=
    setitem "sales_share"
      (λ r, CFloat (if (total_sales =? 0)%float then nan
                    else (num r "sales" / total_sales)%float)) camp_agg in
  setitem "share_gap"
    (λ r, CFloat (num r "spend_share" - num r "sales_share")%float) camp_agg.

(** Line 139: the zero-sales spend flag. *)
Definition with_flag (zero_sales_threshold : float) (camp_agg : frame) : frame :=
  setitem "zero_sales_spend_flag"
    (λ r, CBool ((zero_sales_threshold <=? num r "cost")%float &&
                 (num r "sales" <=? 0)%float)) camp_agg.

Section page.
Context (key_le : list cell → list cell → bool).

(** Lines 113-139, in the order the script runs them.  Line 125 calls
    compute_kpis_from_totals on the five counter columns of the table. *)
Definition campaign_table (cd : frame) (zero_sales_threshold : float) : result frame :=
  camp_agg ← groupby_sum key_le ["campaign_id"; "campaign_name"] cd;
  totals ← select counters camp_agg;
  k ← Metrics.compute_kpis_from_totals (as_totals totals);
  mret (with_flag zero_sales_threshold (with_shares (with_kpis camp_agg))).

End page.

(** The shares the data model asks for, for a group with the given cost
    and sales in a period with the given totals. *)
Definition shares_of (total_cost total_sales cost sales : float) (g : row) : Prop :=
  let spend_share := Metrics.ratio cost total_cost in
  let sales_share := Metrics.ratio sales total_sales in
  at_ g "spend_share" = CFloat spend_share ∧
  at_ g "sales_share" = CFloat sales_share ∧
  at_ g "share_gap" = CFloat (spend_share - sales_share)%float.

Definition campaign (id : Z) (name : string) (cost sales : float) : row :=
  <["campaign_id" := CInt id]> (<["campaign_name" := CStr name]>
  (<["impressions" := CFloat 1000]> (<["clicks" := CFloat 10]>
  (<["cost" := CFloat cost]> (<["orders" := CFloat 0]>
  (<["sales" := CFloat sales]> ∅)))))).

Definition campaign_columns : list string :=
  "campaign_id" :: "campaign_name" :: counters.

(** Two campaigns without sales, at and just under a threshold of 1.0. *)
Definition campaigns_at_threshold : frame :=
  Frame campaign_columns [campaign 1 "A" 1 0; campaign 2 "B" 0.99 0].

(** Two campaigns spending 30 and 70. *)
Definition campaigns_30_70 : frame :=
  Frame campaign_columns [campaign 1 "A" 30 60; campaign 2 "B" 70 40].

Lemma line_125_raises (df totals : frame) :
  select counters df = Ok totals →
  Metrics.compute_kpis_from_totals (as_totals totals) = Raise ValueError.
Proof.
  unfold select. destruct (first_missing df counters); [done|].
  by intros [= <-].
Qed.

Lemma campaign_table_never_returns key_le cd zero_sales_threshold camp_agg :
  campaign_table key_le cd zero_sales_threshold ≠ Ok camp_agg.
Proof.
  unfold campaign_table.
  destruct (groupby_sum key_le _ cd) as [agg|e]; simpl; [|done].
  destruct (select counters agg) as [totals|e] eqn:E; simpl; [|done].
  by rewrite (line_125_raises _ _ E).
Qed.

Lemma campaign_table_raises key_le cd zero_sales_threshold :
  (∀ c, c ∈ campaign_columns → c ∈ columns cd) →
  campaign_table key_le cd zero_sales_threshold = Raise ValueError.
Proof.
  intros Hcols. unfold campaign_table.
  destruct (groupby_sum_returns key_le cd ["campaign_id"; "campaign_name"])
    as [agg Hagg]; [done|done|compute_done|].
  rewrite Hagg. simpl.
  assert (select counters agg = Ok (Frame counters
            ((λ r : row, filter (λ kv, kv.1 ∈ counters) r) <$> rows agg))) as ->.
  { unfold select. rewrite first_missing_None; [done|].
    intros c Hc. rewrite (groupby_sum_columns _ _ _ _ Hagg).
    apply elem_of_app. by right. }
  done.
Qed.

Lemma with_flag_spec zero_sales_threshold camp_agg :
  Forall2 (λ r g, ∃ b, at_ g "zero_sales_spend_flag" = CBool b ∧
                   (b = true ↔ (zero_sales_threshold <=? num r "cost")%float = true ∧
                               (num r "sales" <=? 0)%float = true))
    (rows camp_agg) (rows (with_flag zero_sales_threshold camp_agg)).
Proof.
  unfold with_flag. rewrite rows_setitem.
  apply Forall2_fmap_r, Forall_Forall2_diag, Forall_forall. intros r _.
  eexists. split; [apply at_insert_eq|]. apply andb_true_iff.
Qed.

Lemma with_shares_spec camp_agg :
  Forall2 (λ r g, shares_of (column_sum "cost" (rows camp_agg))
                            (column_sum "sales" (rows camp_agg))
                            (num r "cost") (num r "sales") g)
    (rows camp_agg) (rows (with_shares camp_agg)).
Proof.
  unfold with_shares. cbv zeta. rewrite !rows_setitem, <- !list_fmap_compose.
  apply Forall2_fmap_r, Forall_Forall2_diag, Forall_forall. intros r _.
  unfold shares_of, Metrics.ratio, compose. cbv zeta.
  repeat (rewrite num_insert_eq || rewrite num_insert_ne by done).
  repeat (rewrite at_insert_eq || rewrite at_insert_ne by done).
  done.
Qed.

(** C5: on two campaigns without sales, spending 1.0 and 0.99, with the
    threshold 1.0, the Overview script raises ValueError at line 125 (the
    truth value of a column) and assigns no flag; line 139 taken alone
    would flag the first campaign and not the second, and flags exactly the
    groups with cost >= threshold and sales <= 0. *)
Theorem zero_sales_spend_flag_unreached key_le :
  campaign_table key_le campaigns_at_threshold 1 = Raise ValueError ∧
  (λ g, at_ g "zero_sales_spend_flag") <$> rows (with_flag 1 campaigns_at_threshold)
    = [CBool true; CBool false] ∧
  (∀ zero_sales_threshold camp_agg,
     Forall2 (λ r g, ∃ b, at_ g "zero_sales_spend_flag" = CBool b ∧
                (b = true ↔ (zero_sales_threshold <=? num r "cost")%float = true ∧
                            (num r "sales" <=? 0)%float = true))
       (rows camp_agg) (rows (with_flag zero_sales_threshold camp_agg))).
Proof.
  split; [|split].
  - apply campaign_table_raises. intros c Hc. exact Hc.
  - reflexivity.
  - apply with_flag_spec.
Qed.

(** C6: on two campaigns spending 30 and 70 the Overview script raises
    ValueError at line 125 and assigns no share; lines 133-137 taken alone
    would give the spend shares 0.30 and 0.70, and give every group
    cost / total cost, sales / total sales and their difference, each share
    being NaN when its total is zero. *)
Theorem shares_unreached key_le :
  campaign_table key_le campaigns_30_70 1 = Raise ValueError ∧
  (λ g, at_ g "spend_share") <$> rows (with_shares campaigns_30_70)
    = [CFloat 0.3; CFloat 0.7] ∧
  (∀ camp_agg,
     Forall2 (λ r g, shares_of (column_sum "cost" (rows camp_agg))
                               (column_sum "sales" (rows camp_agg))
                               (num r "cost") (num r "sales") g)
       (rows camp_agg) (rows (with_shares camp_agg))).
Proof.
  split; [|split].
  - apply campaign_table_raises. intros c Hc. exact Hc.
  - reflexivity.
  - apply with_shares_spec.
Qed.

End Overview.

(** ** app/pages/Recommendations.py: scale candidates *)

Module Recommendations.
Import Py Pandas.


Definition pred (r : row) : float := num r "pred_future7_roas".

(** [Series.dropna()] on a float column *)
Definition dropna (xs : list float) : list float :=
  filter (λ x, is_nan x = false) xs.

(** NumPy's [_lerp(a, b, t)] *)
Definition lerp (a b t : float) : float :=
  if (0.5 <=? t)%float then (b - (b - a) * (1 - t))%float
  else (a + (b - a) * t)%float.

(** [np.percentile(xs, 75)] with the default linear method, for [xs] free
    of NaN.  The virtual index is [0.75 * (n - 1)]; with [n] below 2^51
    that product is exact, so its floor is [3 * (n - 1) / 4] and its
    fractional part a number of quarters. *)
Definition percentile75 (xs : list float) : float :=
  match xs with
  | [] => nan
  | _ =>
      let n := length xs in
      let sorted := merge_sort (λ x y, (x <=? y)%float) xs in
      let lo := (3 * (n - 1) / 4)%nat in
      let hi := Nat.min (lo + 1) (n - 1) in
      let gamma :=
        match (3 * (n - 1) mod 4)%nat with
        | 0 => 0%float
        | 1 => 0.25%float
        | 2 => 0.5%float
        | _ => 0.75%float
        end in
      lerp (default nan (sorted !! lo)) (default nan (sorted !! hi)) gamma
  end.

(** [np.nanpercentile(xs, 75)] *)
Definition nanpercentile75 (xs : list float) : float := percentile75 (dropna xs).

(** The three conjuncts of the mask of lines 53-55. *)
Definition scale_mask (threshold min_spend : float) (r : row) : bool :=
  (min_spend <=? num r "cost")%float && negb (is_nan (pred r)) &&
  (threshold <=? pred r)%float.

(** Lines 52-56 *)
Definition scale (scored : frame) (min_spend : float) : result frame :=
  match first_missing scored ["cost"; "pred_future7_roas"] with
  | Some c => Raise (KeyError c)
  | None =>
      let threshold := nanpercentile75 (dropna (pred <$> rows scored)) in
      Ok (Frame (columns scored)
                (filter (λ r, scale_mask threshold min_spend r) (rows scored)))
  end.

(** The place of [x] against [y] in a descending sort with NaN last. *)
Definition desc_cmp (x y : float) : comparison :=
  if is_nan x then (if is_nan y then Eq else Gt)
  else if is_nan y then Lt
  else if (y <? x)%float then Lt
  else if (x <? y)%float then Gt else Eq.

(** Row [a] may stand before row [b] when sorting by
    [["pred_future7_roas", "sales"]], both descending. *)
Definition before (a b : row) : bool :=
  match desc_cmp (pred a) (pred b) with
  | Lt => true
  | Gt => false
  | Eq => match desc_cmp (num a "sales") (num b "sales") with
          | Gt => false
          | _ => true
          end
  end.

(** Lines 114-117: an empty selection is left alone, any other is sorted. *)
Definition sort_scale (scale : frame) : result frame :=
  match rows scale with
  | [] => Ok scale
  | _ =>
      match first_missing scale ["pred_future7_roas"; "sales"] with
      | Some c => Raise (KeyError c)
      | None => Ok (Frame (columns scale)
                          (merge_sort (λ a b, before a b) (rows scale)))
      end
  end.

Section cleaning.
(** [pd.to_numeric(s, errors="coerce")] on a string entry: the number it
    spells, NaN when it spells none.  The parser is pandas'. *)
Context (str_to_float : string → float).






End cleaning.





#[local] Instance before_total : Total (λ a b : row, Is_true (before a b)).
Proof.
  intros a b. unfold before, desc_cmp.
  destruct (is_nan (pred a)), (is_nan (pred b)),
    (pred b <? pred a)%float, (pred a <? pred b)%float,
    (is_nan (num a "sales")), (is_nan (num b "sales")),
    (num b "sales" <? num a "sales")%float,
    (num a "sales" <? num b "sales")%float; simpl; auto.
Qed.







Section cleaning_facts.
Context (str_to_float : string → float).








End cleaning_facts.






End Recommendations.

(** ** app/pages/utils/model.py *)

Module Model.
Import Py Pandas.

(** A fitted model, as far as inference goes: one number per row of
    feature values (for the classifier, the probability of class 1). *)
Definition model : Type := list cell → float.

(** What is on disk under artifacts/: the schema document, when there is
    one, and the two model files, when both are there. *)
Record artifacts : Type := Artifacts {
  schema_file : option (gmap string (list string));
  model_files : option (model * model)
}.

Definition load_model_schema (a : artifacts) : M (list frame) (gmap string (list string)) :=
  match schema_file a with
  | Some schema => mret schema
  | None => raise (FileNotFoundError "model_schema.json")
  end.

Definition load_models (a : artifacts) : M (list frame) (model * model) :=
  match model_files a with
  | Some models => mret models
  | None => raise (FileNotFoundError "artifacts/models/")
  end.

(** [if col not in X.columns: X[col] = 0] *)
Definition fill_missing (X : nat) (col : string) : M (list frame) () :=
  f ← get X;
  if has_column f col then mret () else put X (setitem col (λ _, CInt 0) f).

(** [df[c] = values], on the object [df] refers to *)
Definition assign (df : nat) (c : string) (values : list float) : M (list frame) () :=
  f ← get df; f ← lift (setitem_values c values f); put df f.

Definition predict_with_models (a : artifacts) (df_features : nat) : M (list frame) nat :=
  schema ← load_model_schema a;
  features ← lift (from_option Ok (Raise (KeyError "features")) (schema !! "features"));
  f ← get df_features; X ← new f;
  for_each (fill_missing X) features;;
  f ← get X; f ← lift (select features f); X ← new f;
  models ← load_models a;
  f ← get X;
  let waste_prob := (λ r, models.1 (at_ r <$> features)) <$> rows f in
  let future_roas := (λ r, models.2 (at_ r <$> features)) <$> rows f in
  f ← get df_features; out ← new f;
  assign out "waste_risk_prob" waste_prob;;
  assign out "pred_future7_roas" future_roas;;
  mret out.

(** The feature values the models see for an input row: the row's entry
    for a column the input has, 0 for a declared feature it lacks. *)
Definition feature_vector (input : frame) (features : list string) (r : row) : list cell :=
  (λ c, if bool_decide (c ∈ columns input) then at_ r c else CInt 0) <$> features.

(** The column list after [df[c] = ...] *)
Definition with_column (cols : list string) (c : string) : list string :=
  if bool_decide (c ∈ cols) then cols else cols ++ [c].

(** An input that already has a waste_risk_prob column, and constant models. *)
Definition rescored : frame :=
  Frame ["cost"; "waste_risk_prob"]
        [<["cost" := CFloat 10]> (<["waste_risk_prob" := CFloat 0.5]> ∅)].

Definition constant_models : artifacts :=
  Artifacts (Some (<["features" := ["cost"; "clicks"]]> ∅))
            (Some (λ _, 0.9%float, λ _, 2%float)).

(** The loop over the declared features, as one function of the frame. *)
Definition fill_step (f : frame) (col : string) : frame :=
  if has_column f col then f else setitem col (λ _, CInt 0) f.

Definition fill (features : list string) (f : frame) : frame :=
  foldl fill_step f features.

Definition fill_row (cols features : list string) (r : row) : row :=
  foldl (λ (r : row) c, if bool_decide (c ∈ cols) then r else <[c := CInt 0]> r)
        r features.

Lemma fill_missing_run (X : nat) (col : string) (h : list frame) f :
  h !! X = Some f →
  fill_missing X col h = (Ok (), <[X := fill_step f col]> h).
Proof.
  intros Hf. unfold fill_missing. rewrite (run_bind _ _ _ _ _ (get_run _ _ _ Hf)).
  unfold fill_step. destruct (has_column f col); [|done].
  by rewrite list_insert_id.
Qed.

Lemma for_each_fill (X : nat) (features : list string) (h : list frame) f :
  h !! X = Some f →
  for_each (fill_missing X) features h = (Ok (), <[X := fill features f]> h).
Proof.
  revert h f. induction features as [|col features IH]; intros h f Hf; simpl.
  - unfold mret, M_ret. by rewrite list_insert_id.
  - rewrite (run_bind _ _ _ _ _ (fill_missing_run _ col _ _ Hf)).
    rewrite (IH _ (fill_step f col)).
    + by rewrite list_insert_insert_eq.
    + apply list_lookup_insert_eq. by eapply lookup_lt_Some.
Qed.

Lemma fill_cons col features f :
  fill (col :: features) f = fill features (fill_step f col).
Proof. done. Qed.

Lemma fill_row_cons cols c features (r : row) :
  fill_row cols (c :: features) r =
    fill_row cols features (if bool_decide (c ∈ cols) then r else <[c := CInt 0]> r).
Proof. done. Qed.

Lemma fill_row_known cols col features (r : row) :
  r !! col = Some (CInt 0) →
  fill_row (cols ++ [col]) features r = fill_row cols features r.
Proof.
  revert r. induction features as [|c features IH]; intros r Hr; [done|].
  rewrite !fill_row_cons.
  destruct (decide (c ∈ cols)) as [Hc|Hc].
  - rewrite !bool_decide_eq_true_2; [by apply IH|done|].
    apply elem_of_app. by left.
  - rewrite (bool_decide_eq_false_2 (c ∈ cols)) by done.
    destruct (decide (c = col)) as [->|Hne].
    + rewrite bool_decide_eq_true_2 by (apply elem_of_app; right; left).
      rewrite (insert_id r col) by done. by apply IH.
    + rewrite bool_decide_eq_false_2.
      * apply IH. by rewrite lookup_insert_ne.
      * intros [?|Hin%list_elem_of_singleton]%elem_of_app; done.
Qed.

Lemma fill_rows features f :
  rows (fill features f) = fill_row (columns f) features <$> rows f.
Proof.
  revert f. induction features as [|col features IH]; intros f.
  - simpl. by rewrite list_fmap_id.
  - rewrite fill_cons, IH.
    unfold fill_step, has_column. destruct (decide (col ∈ columns f)) as [Hc|Hc].
    + rewrite bool_decide_eq_true_2 by done.
      apply list_fmap_ext. intros _ r _. rewrite fill_row_cons.
      by rewrite bool_decide_eq_true_2.
    + rewrite bool_decide_eq_false_2 by done. rewrite rows_setitem.
      rewrite <- list_fmap_compose. apply list_fmap_ext. intros _ r _.
      rewrite fill_row_cons, (bool_decide_eq_false_2 (col ∈ columns f)) by done.
      unfold compose, setitem, has_column. cbn [columns].
      rewrite bool_decide_eq_false_2 by done.
      by rewrite fill_row_known by apply lookup_insert_eq.
Qed.

Lemma fill_columns features f c :
  c ∈ columns f ∨ c ∈ features → c ∈ columns (fill features f).
Proof.
  revert f. induction features as [|col features IH]; intros f [Hc|Hc].
  - done.
  - by apply not_elem_of_nil in Hc.
  - rewrite fill_cons. apply IH. left. unfold fill_step.
    destruct (has_column f col) eqn:E; [done|]. unfold setitem. simpl.
    rewrite E. apply elem_of_app. by left.
  - rewrite fill_cons. apply IH. apply elem_of_cons in Hc as [->|Hc]; [|by right].
    left. unfold fill_step. destruct (has_column f col) eqn:E.
    + by apply bool_decide_eq_true_1 in E.
    + unfold setitem. simpl. rewrite E. apply elem_of_app. right. by left.
Qed.

Lemma at_fill_row cols features (r : row) c :
  at_ (fill_row cols features r) c =
    if bool_decide (c ∈ cols) then at_ r c
    else if bool_decide (c ∈ features) then CInt 0 else at_ r c.
Proof.
  revert r. induction features as [|x features IH]; intros r.
  - change (fill_row cols [] r) with r.
    destruct (bool_decide (c ∈ cols)); [done|].
    by rewrite bool_decide_eq_false_2 by apply not_elem_of_nil.
  - rewrite fill_row_cons, IH.
    destruct (decide (c ∈ cols)) as [Hc|Hc].
    + rewrite !bool_decide_eq_true_2 by done.
      destruct (decide (x ∈ cols)) as [Hx|Hx].
      * by rewrite bool_decide_eq_true_2.
      * rewrite bool_decide_eq_false_2 by done. apply at_insert_ne. congruence.
    + rewrite !(bool_decide_eq_false_2 (c ∈ cols)) by done.
      destruct (decide (c ∈ features)) as [Hf|Hf].
      * rewrite !bool_decide_eq_true_2; [done|by right|done].
      * rewrite (bool_decide_eq_false_2 (c ∈ features)) by done.
        destruct (decide (x ∈ cols)) as [Hx|Hx].
        -- rewrite bool_decide_eq_true_2 by done.
           rewrite bool_decide_eq_false_2; [done|].
           intros [->|?]%elem_of_cons; done.
        -- rewrite (bool_decide_eq_false_2 (x ∈ cols)) by done.
           destruct (decide (c = x)) as [->|Hne].
           ++ rewrite bool_decide_eq_true_2 by left. apply at_insert_eq.
           ++ rewrite bool_decide_eq_false_2.
              ** apply at_insert_ne. congruence.
              ** intros [->|?]%elem_of_cons; done.
Qed.

Lemma at_select_row (cols : list string) (r : row) c :
  c ∈ cols → at_ (filter (λ kv, kv.1 ∈ cols) r) c = at_ r c.
Proof.
  intros Hc. unfold at_. destruct (r !! c) as [v|] eqn:E.
  - by rewrite (map_lookup_filter_Some_2 _ r c v).
  - rewrite (map_lookup_filter_None_2 _ r c); [done|]. by left.
Qed.

Lemma selected_features input features (r : row) :
  at_ (filter (λ kv, kv.1 ∈ features) (fill_row (columns input) features r))
    <$> features = feature_vector input features r.
Proof.
  unfold feature_vector. apply list_fmap_ext. intros _ c Hc%list_elem_of_lookup_2.
  rewrite at_select_row, at_fill_row by done.
  destruct (bool_decide (c ∈ columns input)); [done|].
  by rewrite bool_decide_eq_true_2.
Qed.

Lemma zip_with_same {A B C} (f : A → B → C) (g : A → B) (l : list A) :
  zip_with f l (g <$> l) = (λ x, f x (g x)) <$> l.
Proof. by rewrite zip_with_fmap_r, zip_with_diag. Qed.

Lemma model_inputs (m : model) input features :
  (λ r, m (at_ r <$> features)) <$>
    ((λ r : row, filter (λ kv, kv.1 ∈ features) r) <$> rows (fill features input))
  = (λ r, m (feature_vector input features r)) <$> rows input.
Proof.
  rewrite fill_rows, <- !list_fmap_compose. apply list_fmap_ext. intros _ r _.
  simpl. by rewrite selected_features.
Qed.

Lemma select_Ok cols df :
  (∀ c, c ∈ cols → c ∈ columns df) →
  select cols df = Ok (Frame cols ((λ r : row, filter (λ kv, kv.1 ∈ cols) r) <$> rows df)).
Proof. intros H. unfold select. by rewrite first_missing_None. Qed.

Lemma assign_run (df : nat) c values (h : list frame) f :
  h !! df = Some f → length values = length (rows f) →
  assign df c values h =
    (Ok (), <[df := Frame (with_column (columns f) c)
                      (zip_with (λ (r : row) v, <[c := CFloat v]> r) (rows f) values)]> h).
Proof.
  intros Hf Hlen. unfold assign. rewrite (run_bind _ _ _ _ _ (get_run _ _ _ Hf)).
  unfold setitem_values. rewrite Hlen, Nat.eqb_refl. done.
Qed.

Lemma predict_with_models_run (a : artifacts) schema features (models : model * model)
    (h : list frame) (df_features : nat) (input : frame) :
  schema_file a = Some schema → schema !! "features" = Some features →
  model_files a = Some models → h !! df_features = Some input →
  let fv := feature_vector input features in
  ∃ X1 X2,
    predict_with_models a df_features h =
      (Ok (S (S (length h))),
       h ++ [X1; X2;
             Frame (with_column (with_column (columns input) "waste_risk_prob")
                                "pred_future7_roas")
                   ((λ r, <["pred_future7_roas" := CFloat (models.2 (fv r))]>
                            (<["waste_risk_prob" := CFloat (models.1 (fv r))]> r))
                      <$> rows input)]).
Proof.
  intros Hs Hf Hm Hin fv.
  assert (df_features < length h) as Hlt by by eapply lookup_lt_Some.
  set (filled := fill features input).
  set (sel := Frame features
                ((λ r : row, filter (λ kv, kv.1 ∈ features) r) <$> rows filled)).
  exists filled, sel.
  unfold predict_with_models.
  erewrite run_bind; [|unfold load_model_schema; rewrite Hs; reflexivity].
  erewrite run_bind; [|unfold lift; rewrite Hf; reflexivity].
  rewrite (run_bind _ _ _ _ _ (get_run _ _ _ Hin)).
  erewrite run_bind; [|reflexivity].
  erewrite run_bind; [|by apply (for_each_fill _ _ _ input), list_lookup_middle].
  assert (<[length h := fill features input]> (h ++ [input]) = h ++ [filled]) as ->.
  { rewrite insert_app_r_alt by done. by rewrite Nat.sub_diag. }
  erewrite run_bind; [|by apply (get_run _ _ filled), list_lookup_middle].
  erewrite run_bind;
    [|unfold lift; rewrite (select_Ok features filled); [reflexivity|];
      intros c Hc; apply fill_columns; by right].
  erewrite run_bind; [|reflexivity].
  erewrite run_bind; [|unfold load_models; rewrite Hm; reflexivity].
  erewrite run_bind; [|by apply (get_run _ _ sel), list_lookup_middle].
  erewrite run_bind;
    [|apply (get_run _ _ input); rewrite !lookup_app_l; [done|done|];
      rewrite length_app; simpl; lia].
  erewrite run_bind; [|reflexivity].
  set (out := length ((h ++ [filled]) ++ [sel])).
  set (h4 := ((h ++ [filled]) ++ [sel]) ++ [input]).
  assert (h4 !! out = Some input) as Hout by by apply list_lookup_middle.
  assert (out < length h4) as Hlen by by eapply lookup_lt_Some.
  erewrite run_bind; [|apply (assign_run _ _ _ _ input Hout)].
  2:{ unfold sel, filled. simpl. by rewrite !length_fmap, fill_rows, length_fmap. }
  erewrite run_bind; [|eapply assign_run; [by apply list_lookup_insert_eq|]].
  2:{ unfold sel, filled. simpl.
      rewrite length_zip_with_l_eq; by rewrite !length_fmap, fill_rows, length_fmap. }
  unfold mret, M_ret. f_equal.
  - f_equal. unfold out. rewrite !length_app. simpl. lia.
  - rewrite list_insert_insert_eq. unfold h4, out.
    rewrite insert_app_r_alt by done. rewrite Nat.sub_diag. simpl.
    rewrite <- !(assoc_L (++)). simpl. do 4 f_equal.
    unfold sel, filled. simpl. rewrite !model_inputs.
    rewrite (zip_with_same (λ (r : row) v, <["waste_risk_prob" := CFloat v]> r)).
    rewrite zip_with_fmap_l.
    by rewrite (zip_with_same
                  (λ r v, <["pred_future7_roas" := CFloat v]>
                            (<["waste_risk_prob" := CFloat (models.1 (fv r))]> r))).
Qed.

(** An input without prediction columns. *)
Definition unscored : frame :=
  Frame ["cost"] [<["cost" := CFloat 10]> ∅; <["cost" := CFloat 20]> ∅].

(** C10 as stated fails on an input that already has a waste_risk_prob
    column: the output has one more column, not two, and the input's 0.5 is
    replaced by the prediction 0.9. *)
Lemma predict_overwrites_existing_column :
  ∃ out h' fo,
    predict_with_models constant_models 0 [rescored] = (Ok out, h') ∧
    h' !! out = Some fo ∧
    columns rescored = ["cost"; "waste_risk_prob"] ∧
    columns fo = ["cost"; "waste_risk_prob"; "pred_future7_roas"] ∧
    (λ r, at_ r "waste_risk_prob") <$> rows rescored = [CFloat 0.5] ∧
    (λ r, at_ r "waste_risk_prob") <$> rows fo = [CFloat 0.9].
Proof.
  destruct (predict_with_models_run constant_models _ _ _ [rescored] 0 rescored
              eq_refl eq_refl eq_refl eq_refl) as (X1 & X2 & Hrun).
  do 3 eexists. split; [exact Hrun|]. split; [reflexivity|]. by vm_compute.
Qed.

(** C10, amended: when the schema and the models are there,
    predict_with_models returns a new table and changes no table that
    existed, the input included.  The new table has the input's rows, each
    with waste_risk_prob and pred_future7_roas set to the models' outputs on
    the declared features (0 for a feature the input lacks) and every other
    entry unchanged; its columns are the input's, followed by whichever of
    the two names the input did not have.  When the input has neither name,
    that is every input column unchanged plus exactly the two new ones. *)
Theorem predict_with_models_frame (a : artifacts) schema features (models : model * model)
    (h : list frame) (df_features : nat) (input : frame) :
  schema_file a = Some schema → schema !! "features" = Some features →
  model_files a = Some models → h !! df_features = Some input →
  ∃ out fo h',
    predict_with_models a df_features h = (Ok out, h') ∧
    (∀ l f, h !! l = Some f → h' !! l = Some f) ∧
    h !! out = None ∧ h' !! out = Some fo ∧
    columns fo = with_column (with_column (columns input) "waste_risk_prob")
                             "pred_future7_roas" ∧
    rows fo =
      (λ r, <["pred_future7_roas" :=
                CFloat (models.2 (feature_vector input features r))]>
              (<["waste_risk_prob" :=
                   CFloat (models.1 (feature_vector input features r))]> r))
        <$> rows input ∧
    Forall2 (λ (r r' : row), ∀ c, c ≠ "waste_risk_prob" → c ≠ "pred_future7_roas" →
                             r' !! c = r !! c) (rows input) (rows fo) ∧
    ("waste_risk_prob" ∉ columns input → "pred_future7_roas" ∉ columns input →
     columns fo = columns input ++ ["waste_risk_prob"; "pred_future7_roas"] ∧
     Forall2 (λ (r r' : row), ∀ c, c ∈ columns input → r' !! c = r !! c)
             (rows input) (rows fo)).
Proof.
  intros Hs Hf Hm Hin.
  destruct (predict_with_models_run a schema features models h df_features input
              Hs Hf Hm Hin) as (X1 & X2 & Hrun).
  eexists _, _, _. split; [exact Hrun|].
  assert (∀ fo : frame,
    rows fo =
      (λ r, <["pred_future7_roas" :=
                CFloat (models.2 (feature_vector input features r))]>
              (<["waste_risk_prob" :=
                   CFloat (models.1 (feature_vector input features r))]> r))
        <$> rows input →
    Forall2 (λ (r r' : row), ∀ c, c ≠ "waste_risk_prob" → c ≠ "pred_future7_roas" →
                             r' !! c = r !! c) (rows input) (rows fo)) as Hkeep.
  { intros fo ->. apply Forall2_fmap_r, Forall_Forall2_diag, Forall_forall.
    intros r _ c Hw Hp. by rewrite !lookup_insert_ne. }
  split; [|split; [|split; [|split; [|split; [|split]]]]].
  - intros l f Hl. by apply lookup_app_l_Some.
  - apply lookup_ge_None. lia.
  - rewrite lookup_app_r by lia.
    by replace (S (S (length h)) - length h) with 2 by lia.
  - done.
  - done.
  - by apply Hkeep.
  - intros Hw Hp. simpl. split.
    + unfold with_column. rewrite (bool_decide_eq_false_2 _ Hw).
      rewrite bool_decide_eq_false_2.
      * by rewrite <- (assoc_L (++)).
      * intros [?|Hin'%list_elem_of_singleton]%elem_of_app; done.
    + eapply Forall2_impl; [by apply (Hkeep (Frame [] _))|].
      intros r r' Hr c Hc. apply Hr; congruence.
Qed.

Lemma predict_with_models_frame_witness :
  ∃ out fo h',
    predict_with_models constant_models 0 [unscored] = (Ok out, h') ∧
    h' !! 0 = Some unscored ∧ h' !! out = Some fo ∧
    columns fo = ["cost"; "waste_risk_prob"; "pred_future7_roas"] ∧
    Forall2 (λ (r r' : row), ∀ c, c ∈ columns unscored → r' !! c = r !! c)
            (rows unscored) (rows fo).
Proof.
  destruct (predict_with_models_frame constant_models _ _ _ [unscored] 0 unscored
              eq_refl eq_refl eq_refl eq_refl)
    as (out & fo & h' & Hrun & Hold & _ & Hout & _ & _ & _ & Hfresh).
  destruct Hfresh as [Hcols Hrows]; [compute_done|compute_done|].
  exists out, fo, h'. split; [exact Hrun|]. split; [by apply Hold|].
  split; [exact Hout|]. split; [exact Hcols|exact Hrows].
Defined.

End Model.

(** ** server/services/data_service.py *)

Module DataService.
Import Py Pandas.

(** The service object: the tables it has loaded, by reference, and the
    store those references point into. *)
Record service : Type := Service { heap : list frame; cache : gmap string nat }.

(** A store operation, run on the service's store. *)
Definition on_heap {A} (m : M (list frame) A) : M service A :=
  λ st, let (r, h) := m (heap st) in (r, Service h (cache st)).

Definition cache_lookup (name : string) : M service (option nat) :=
  λ st, (Ok (cache st !! name), st).

Definition cache_store (name : string) (df : nat) : M service () :=
  λ st, (Ok (), Service (heap st) (<[name := df]> (cache st))).

(** Truth value of an optional string parameter: [None] and [""] are falsy. *)
Definition given (o : option string) : bool :=
  match o with
  | Some s => bool_decide (s ≠ "")
  | None => false
  end.

Definition date_cell (t : option Z) : cell :=
  match t with
  | Some t => CTime t
  | None => CNull
  end.

(** [df["date"] >= sd] and [df["date"] <= ed], row by row; NaT compares
    false. *)
Definition date_ge (sd : Z) (r : row) : bool :=
  match at_ r "date" with
  | CTime t => (sd <=? t)%Z
  | _ => false
  end.

Definition date_le (ed : Z) (r : row) : bool :=
  match at_ r "date" with
  | CTime t => (t <=? ed)%Z
  | _ => false
  end.

(** [df.head(n)] *)
Definition head_rows (n : Z) (df : frame) : frame :=
  Frame (columns df) (take (Z.to_nat n) (rows df)).

(** [df.where(pd.notnull(df), None)] *)
Definition where_notnull (df : frame) : frame :=
  Frame (columns df)
        ((λ r : row, (λ c, if isna c then CNull else c) <$> r) <$> rows df).

Section service.
(** The processed directory, by file name, as the readers return it; and
    three pandas conversions: [pd.to_datetime(x, errors="coerce")] with
    [None] for NaT, [Timestamp.strftime("%Y-%m-%d")], and [str] as
    [astype(str)] applies it to an entry. *)
Context (files : gmap string frame).
Context (to_datetime : cell → option Z).
Context (strftime : Z → string).
Context (astype_str : cell → string).

Definition _read_table (name : string) : M service nat :=
  match files !! (name +:+ ".parquet") with
  | Some df => on_heap (new df)
  | None =>
      match files !! (name +:+ ".csv") with
      | Some df => on_heap (new df)
      | None => raise (FileNotFoundError name)
      end
  end.

Definition get_table (name : string) : M service nat :=
  cached ← cache_lookup name;
  match cached with
  | Some df => mret df
  | None =>
      df ← _read_table name;
      f ← on_heap (get df);
      (if has_column f "date"
       then on_heap (put df (setitem "date" (λ r, date_cell (to_datetime (at_ r "date"))) f))
       else mret ());;
      cache_store name df;;
      mret df
  end.

(** [df = df[mask]] *)
Definition keep_rows (mask : row → bool) (df : nat) : M service nat :=
  f ← on_heap (get df); on_heap (new (getitem_mask mask f)).

Definition filter_start (start_date : option string) (df : nat) : M service nat :=
  if given start_date then
    match to_datetime (CStr (default "" start_date)) with
    | Some sd => keep_rows (date_ge sd) df
    | None => mret df
    end
  else mret df.

Definition filter_end (end_date : option string) (df : nat) : M service nat :=
  if given end_date then
    match to_datetime (CStr (default "" end_date)) with
    | Some ed => keep_rows (date_le ed) df
    | None => mret df
    end
  else mret df.

Definition filter_dates (start_date end_date : option string) (df : nat)
  : M service nat :=
  f ← on_heap (get df);
  if has_column f "date" && (given start_date || given end_date) then
    df ← filter_start start_date df; filter_end end_date df
  else mret df.

Definition campaign_is (campaign_id : string) (r : row) : bool :=
  bool_decide (astype_str (at_ r "campaign_id") = campaign_id).

Definition filter_campaign (campaign_id : option string) (df : nat) : M service nat :=
  f ← on_heap (get df);
  if given campaign_id && has_column f "campaign_id"
  then keep_rows (campaign_is (default "" campaign_id)) df
  else mret df.

Definition apply_limit (limit : option Z) (df : nat) : M service nat :=
  match limit with
  | Some n =>
      if (0 <? n)%Z
      then f ← on_heap (get df); on_heap (new (head_rows n f))
      else mret df
  | None => mret df
  end.

Definition strftime_cell (c : cell) : cell :=
  match c with
  | CTime t => CStr (strftime t)
  | _ => CNull
  end.

(** Lines 80-88: dates to strings, missing values to [None], rows to dicts. *)
Definition to_records (df : nat) : M service (list row) :=
  f ← on_heap (get df);
  (if has_column f "date"
   then on_heap (put df (setitem "date" (λ r, strftime_cell (at_ r "date")) f))
   else mret ());;
  f ← on_heap (get df);
  df ← on_heap (new (where_notnull f));
  f ← on_heap (get df);
  mret (rows f).

Definition get_records (name : string) (start_date end_date campaign_id : option string)
    (limit : option Z) : M service (list row) :=
  table ← get_table name;
  f ← on_heap (get table);
  df ← on_heap (new f);
  df ← filter_dates start_date end_date df;
  df ← filter_campaign campaign_id df;
  df ← apply_limit limit df;
  to_records df.

(** A table as get_table caches it: the date column, when there is one,
    converted with [pd.to_datetime(..., errors="coerce")]. *)
Definition normalize (f : frame) : frame :=
  if has_column f "date"
  then setitem "date" (λ r, date_cell (to_datetime (at_ r "date"))) f
  else f.

(** The table a name stands for on disk: parquet first, csv otherwise. *)
Definition stored (name : string) : option frame :=
  match files !! (name +:+ ".parquet") with
  | Some df => Some df
  | None => files !! (name +:+ ".csv")
  end.

(** A bound of the date range: there when the parameter is given and parses. *)
Definition bound (date : option string) : option Z :=
  if given date then to_datetime (CStr (default "" date)) else None.

(** The rows the request asks for, said in one go: inside the date range
    (each bound counting only when it is there), and of the campaign. *)
Definition after (sd : option Z) (r : row) : bool :=
  match sd with Some t => date_ge t r | None => true end.

Definition until (ed : option Z) (r : row) : bool :=
  match ed with Some t => date_le t r | None => true end.

Definition in_range (f : frame) (start_date end_date : option string) (r : row) : bool :=
  if has_column f "date"
  then after (bound start_date) r && until (bound end_date) r
  else true.

Definition of_campaign (f : frame) (campaign_id : option string) (r : row) : bool :=
  if given campaign_id && has_column f "campaign_id"
  then campaign_is (default "" campaign_id) r else true.

Definition wanted (f : frame) (start_date end_date campaign_id : option string)
    (r : row) : bool :=
  in_range f start_date end_date r && of_campaign f campaign_id r.

Definition truncate (limit : option Z) (rs : list row) : list row :=
  match limit with
  | Some n => if (0 <? n)%Z then take (Z.to_nat n) rs else rs
  | None => rs
  end.

(** One row, as it is serialised. *)
Definition record (f : frame) (r : row) : row :=
  (λ c, if isna c then CNull else c) <$>
    (if has_column f "date" then <["date" := strftime_cell (at_ r "date")]> r else r).

Definition records (f : frame) (start_date end_date campaign_id : option string)
    (limit : option Z) : list row :=
  record f <$>
    truncate limit (filter (λ r, wanted f start_date end_date campaign_id r) (rows f)).

(** The states the service goes through: it starts empty and only
    get_records is called on it. *)
Inductive reachable : service → Prop :=
  | reachable_init : reachable (Service [] ∅)
  | reachable_call st name start_date end_date campaign_id limit :
      reachable st →
      reachable (get_records name start_date end_date campaign_id limit st).2.

(** Every cached name refers to a table in the store that is the stored
    table with its dates normalised. *)
Definition consistent (st : service) : Prop :=
  ∀ name df, cache st !! name = Some df →
    ∃ f, stored name = Some f ∧ heap st !! df = Some (normalize f).

(** The steps of get_records, as functions of the frame they start from. *)
Definition start_of (start_date : option string) (f : frame) : frame :=
  match bound start_date with
  | Some sd => getitem_mask (date_ge sd) f
  | None => f
  end.

Definition end_of (end_date : option string) (f : frame) : frame :=
  match bound end_date with
  | Some ed => getitem_mask (date_le ed) f
  | None => f
  end.

Definition dates_of (start_date end_date : option string) (f : frame) : frame :=
  if has_column f "date" && (given start_date || given end_date)
  then end_of end_date (start_of start_date f) else f.

Definition campaign_of (campaign_id : option string) (f : frame) : frame :=
  if given campaign_id && has_column f "campaign_id"
  then getitem_mask (campaign_is (default "" campaign_id)) f else f.

Definition limit_of (limit : option Z) (f : frame) : frame :=
  match limit with
  | Some n => if (0 <? n)%Z then head_rows n f else f
  | None => f
  end.

Definition dates_to_str (f : frame) : frame :=
  if has_column f "date"
  then setitem "date" (λ r, strftime_cell (at_ r "date")) f
  else f.

(** Running [m] from a store [base ++ ext] leaves [base] and the cache
    alone and returns a reference, outside [base], to the frame [g]. *)
Definition lands (m : M service nat) (base ext : list frame) (c : gmap string nat)
    (g : frame) : Prop :=
  ∃ df' ext', m (Service (base ++ ext) c) = (Ok df', Service (base ++ ext') c) ∧
              (base ++ ext') !! df' = Some g ∧ length base ≤ df'.

Lemma on_heap_get h c l f :
  h !! l = Some f → on_heap (get l) (Service h c) = (Ok f, Service h c).
Proof. intros H. unfold on_heap, get. simpl. by rewrite H. Qed.

Lemma on_heap_new h c f :
  on_heap (new f) (Service h c) = (Ok (length h), Service (h ++ [f]) c).
Proof. done. Qed.

Lemma on_heap_put h c l f :
  on_heap (put l f) (Service h c) = (Ok (), Service (<[l := f]> h) c).
Proof. done. Qed.

Lemma lands_ret base ext c df f :
  (base ++ ext) !! df = Some f → length base ≤ df → lands (mret df) base ext c f.
Proof. intros Hf Hle. by exists df, ext. Qed.

Lemma lands_bind m k base ext c g g' :
  lands m base ext c g →
  (∀ df' ext', (base ++ ext') !! df' = Some g → length base ≤ df' →
               lands (k df') base ext' c g') →
  lands (m ≫= k) base ext c g'.
Proof.
  intros (df' & ext' & Hm & Hg & Hle) Hk.
  destruct (Hk df' ext' Hg Hle) as (df'' & ext'' & Hk' & Hg' & Hle').
  exists df'', ext''. by rewrite (run_bind _ _ _ _ _ Hm).
Qed.

Lemma lands_new base ext c f :
  lands (on_heap (new f)) base ext c f.
Proof.
  exists (length (base ++ ext)), (ext ++ [f]). rewrite on_heap_new.
  rewrite (assoc_L (++)). split; [done|]. split.
  - by apply list_lookup_middle.
  - rewrite length_app. lia.
Qed.

Lemma lands_keep_rows mask base ext c df f :
  (base ++ ext) !! df = Some f → length base ≤ df →
  lands (keep_rows mask df) base ext c (getitem_mask mask f).
Proof.
  intros Hf Hle. unfold keep_rows.
  destruct (lands_new base ext c (getitem_mask mask f)) as (df' & ext' & H).
  exists df', ext'. by rewrite (run_bind _ _ _ _ _ (on_heap_get _ _ _ _ Hf)).
Qed.

Lemma lands_filter_start sd base ext c df f :
  (base ++ ext) !! df = Some f → length base ≤ df →
  lands (filter_start sd df) base ext c (start_of sd f).
Proof.
  intros Hf Hle. unfold filter_start, start_of, bound.
  destruct (given sd); [|by apply lands_ret].
  destruct (to_datetime _); [by apply lands_keep_rows|by apply lands_ret].
Qed.

Lemma lands_filter_end ed base ext c df f :
  (base ++ ext) !! df = Some f → length base ≤ df →
  lands (filter_end ed df) base ext c (end_of ed f).
Proof.
  intros Hf Hle. unfold filter_end, end_of, bound.
  destruct (given ed); [|by apply lands_ret].
  destruct (to_datetime _); [by apply lands_keep_rows|by apply lands_ret].
Qed.

Lemma lands_filter_dates sd ed base ext c df f :
  (base ++ ext) !! df = Some f → length base ≤ df →
  lands (filter_dates sd ed df) base ext c (dates_of sd ed f).
Proof.
  intros Hf Hle. unfold filter_dates, dates_of, lands.
  rewrite (run_bind _ _ _ _ _ (on_heap_get _ _ _ _ Hf)).
  destruct (has_column f "date" && (given sd || given ed)); [|by apply lands_ret].
  apply lands_bind with (g := start_of sd f); [by apply lands_filter_start|].
  intros df' ext' Hf' Hle'. by apply lands_filter_end.
Qed.

Lemma lands_filter_campaign cid base ext c df f :
  (base ++ ext) !! df = Some f → length base ≤ df →
  lands (filter_campaign cid df) base ext c (campaign_of cid f).
Proof.
  intros Hf Hle. unfold filter_campaign, campaign_of, lands.
  rewrite (run_bind _ _ _ _ _ (on_heap_get _ _ _ _ Hf)).
  destruct (given cid && has_column f "campaign_id");
    [by apply lands_keep_rows|by apply lands_ret].
Qed.

Lemma lands_apply_limit limit base ext c df f :
  (base ++ ext) !! df = Some f → length base ≤ df →
  lands (apply_limit limit df) base ext c (limit_of limit f).
Proof.
  intros Hf Hle. unfold apply_limit, limit_of.
  destruct limit as [n|]; [|by apply lands_ret].
  destruct (0 <? n)%Z; [|by apply lands_ret].
  unfold lands. rewrite (run_bind _ _ _ _ _ (on_heap_get _ _ _ _ Hf)).
  apply lands_new.
Qed.

Lemma to_records_run base ext c df f :
  (base ++ ext) !! df = Some f → length base ≤ df →
  ∃ ext', to_records df (Service (base ++ ext) c) =
            (Ok (rows (where_notnull (dates_to_str f))), Service (base ++ ext') c).
Proof.
  intros Hf Hle. unfold to_records.
  rewrite (run_bind _ _ _ _ _ (on_heap_get _ _ _ _ Hf)).
  assert (∃ ext1,
    (if has_column f "date"
     then on_heap (put df (setitem "date" (λ r, strftime_cell (at_ r "date")) f))
     else mret ()) (Service (base ++ ext) c) = (Ok (), Service (base ++ ext1) c) ∧
    (base ++ ext1) !! df = Some (dates_to_str f)) as (ext1 & Hput & Hf1).
  { unfold dates_to_str. destruct (has_column f "date").
    - exists (<[df - length base := setitem "date" (λ r, strftime_cell (at_ r "date")) f]> ext).
      rewrite on_heap_put, insert_app_r_alt by done. split; [done|].
      rewrite <- insert_app_r_alt by done. apply list_lookup_insert_eq.
      by eapply lookup_lt_Some.
    - by exists ext. }
  rewrite (run_bind _ _ _ _ _ Hput).
  rewrite (run_bind _ _ _ _ _ (on_heap_get _ _ _ _ Hf1)).
  rewrite (run_bind _ _ _ _ _ (on_heap_new _ _ _)).
  erewrite run_bind; [|by apply on_heap_get, list_lookup_middle].
  exists (ext1 ++ [where_notnull (dates_to_str f)]). by rewrite (assoc_L (++)).
Qed.

Lemma filter_all_true (l : list row) : filter (λ _ : row, Is_true true) l = l.
Proof.
  induction l as [|r l IH]; [done|].
  rewrite filter_cons_True; [by f_equal|done].
Qed.

Lemma filter_andb (p q : row → bool) (l : list row) :
  filter (λ r, q r) (filter (λ r, p r) l) = filter (λ r, p r && q r) l.
Proof.
  induction l as [|r l IH]; [done|].
  rewrite (filter_cons (λ r, Is_true (p r))), (filter_cons (λ r, Is_true (p r && q r))).
  destruct (p r) eqn:Hp; simpl.
  - rewrite (filter_cons (λ r, Is_true (q r))). destruct (q r); simpl; by rewrite IH.
  - exact IH.
Qed.

Lemma rows_start_of sd f :
  columns (start_of sd f) = columns f ∧
  rows (start_of sd f) = filter (λ r, after (bound sd) r) (rows f).
Proof.
  unfold start_of, after. destruct (bound sd); [done|]. by rewrite filter_all_true.
Qed.

Lemma rows_end_of ed f :
  columns (end_of ed f) = columns f ∧
  rows (end_of ed f) = filter (λ r, until (bound ed) r) (rows f).
Proof.
  unfold end_of, until. destruct (bound ed); [done|]. by rewrite filter_all_true.
Qed.

Lemma has_column_columns f g c : columns f = columns g → has_column f c = has_column g c.
Proof. unfold has_column. by intros ->. Qed.

Lemma rows_dates_of sd ed f :
  columns (dates_of sd ed f) = columns f ∧
  rows (dates_of sd ed f) = filter (λ r, in_range f sd ed r) (rows f).
Proof.
  unfold dates_of, in_range. destruct (has_column f "date") eqn:Hd; simpl.
  - destruct (given sd || given ed) eqn:Hg.
    + destruct (rows_end_of ed (start_of sd f)) as [-> ->].
      destruct (rows_start_of sd f) as [-> ->]. by rewrite filter_andb.
    + apply orb_false_iff in Hg as [Hs He]. unfold bound. rewrite Hs, He. simpl.
      by rewrite filter_all_true.
  - by rewrite filter_all_true.
Qed.

Lemma rows_campaign_of cid f :
  columns (campaign_of cid f) = columns f ∧
  rows (campaign_of cid f) = filter (λ r, of_campaign f cid r) (rows f).
Proof.
  unfold campaign_of, of_campaign.
  destruct (given cid && has_column f "campaign_id"); [done|].
  by rewrite filter_all_true.
Qed.

Lemma rows_limit_of limit f :
  columns (limit_of limit f) = columns f ∧
  rows (limit_of limit f) = truncate limit (rows f).
Proof.
  unfold limit_of, truncate. destruct limit as [n|]; [|done].
  by destruct (0 <? n)%Z.
Qed.

Lemma rows_serialised f g :
  columns g = columns f →
  rows (where_notnull (dates_to_str g)) = record f <$> rows g.
Proof.
  intros Hc. unfold where_notnull, dates_to_str, record.
  rewrite (has_column_columns g f "date" Hc).
  destruct (has_column f "date"); simpl; [|done].
  by rewrite <- list_fmap_compose.
Qed.

Lemma pipeline_records f sd ed cid limit :
  rows (where_notnull (dates_to_str
         (limit_of limit (campaign_of cid (dates_of sd ed f))))) =
  records f sd ed cid limit.
Proof.
  destruct (rows_dates_of sd ed f) as [C1 R1].
  destruct (rows_campaign_of cid (dates_of sd ed f)) as [C2 R2].
  destruct (rows_limit_of limit (campaign_of cid (dates_of sd ed f))) as [C3 R3].
  rewrite (rows_serialised f) by (by rewrite C3, C2, C1).
  unfold records. f_equal. rewrite R3, R2, R1. f_equal.
  rewrite filter_andb. unfold wanted, of_campaign.
  by rewrite (has_column_columns _ f "campaign_id" C1).
Qed.

Lemma read_table_stored name st f0 :
  stored name = Some f0 →
  _read_table name st = (Ok (length (heap st)), Service (heap st ++ [f0]) (cache st)).
Proof.
  unfold stored, _read_table. destruct st as [h c].
  destruct (files !! (name +:+ ".parquet")); [by intros [= ->]|].
  by intros ->.
Qed.

Lemma read_table_missing name st :
  stored name = None → _read_table name st = (Raise (FileNotFoundError name), st).
Proof.
  unfold stored, _read_table.
  destruct (files !! (name +:+ ".parquet")); [done|]. by intros ->.
Qed.

Lemma get_table_cached name st t :
  cache st !! name = Some t → get_table name st = (Ok t, st).
Proof.
  intros H. unfold get_table.
  erewrite run_bind; [|unfold cache_lookup; rewrite H; reflexivity]. done.
Qed.

Lemma get_table_missing name st :
  cache st !! name = None → stored name = None →
  get_table name st = (Raise (FileNotFoundError name), st).
Proof.
  intros H Hs. unfold get_table.
  erewrite run_bind; [|unfold cache_lookup; rewrite H; reflexivity].
  cbv beta iota.
  by rewrite (run_bind_raise _ _ _ _ _ (read_table_missing _ _ Hs)).
Qed.

Lemma get_table_load name st f0 :
  cache st !! name = None → stored name = Some f0 →
  get_table name st =
    (Ok (length (heap st)),
     Service (heap st ++ [normalize f0]) (<[name := length (heap st)]> (cache st))).
Proof.
  intros H Hs. unfold get_table.
  erewrite run_bind; [|unfold cache_lookup; rewrite H; reflexivity].
  cbv beta iota.
  rewrite (run_bind _ _ _ _ _ (read_table_stored _ _ _ Hs)).
  erewrite run_bind; [|by apply on_heap_get, list_lookup_middle].
  assert ((if has_column f0 "date"
           then on_heap (put (length (heap st))
                  (setitem "date" (λ r, date_cell (to_datetime (at_ r "date"))) f0))
           else mret ()) (Service (heap st ++ [f0]) (cache st)) =
          (Ok (), Service (heap st ++ [normalize f0]) (cache st))) as Hput.
  { unfold normalize. destruct (has_column f0 "date"); [|done].
    rewrite on_heap_put, insert_app_r_alt by done. by rewrite Nat.sub_diag. }
  rewrite (run_bind _ _ _ _ _ Hput). done.
Qed.

Lemma consistent_grow h c ext :
  consistent (Service h c) → consistent (Service (h ++ ext) c).
Proof.
  intros H name df Hc. destruct (H name df Hc) as (f & Hs & Hf).
  exists f. split; [done|]. by apply lookup_app_l_Some.
Qed.

Lemma get_table_run name st f0 :
  consistent st → stored name = Some f0 →
  ∃ t ext c,
    get_table name st = (Ok t, Service (heap st ++ ext) c) ∧
    consistent (Service (heap st ++ ext) c) ∧
    (heap st ++ ext) !! t = Some (normalize f0) ∧
    c !! name = Some t ∧ cache st ⊆ c.
Proof.
  intros Hcons Hs. destruct (cache st !! name) as [t|] eqn:Hc.
  - exists t, [], (cache st). rewrite app_nil_r.
    destruct (Hcons name t Hc) as (f & Hs' & Hf).
    rewrite Hs in Hs'. injection Hs' as <-.
    rewrite (get_table_cached _ _ _ Hc). by destruct st.
  - exists (length (heap st)), [normalize f0], (<[name := length (heap st)]> (cache st)).
    rewrite (get_table_load _ _ _ Hc Hs).
    split; [done|]. split; [|split; [by apply list_lookup_middle|split]].
    + intros n df Hn. simpl in Hn. destruct (decide (n = name)) as [->|Hne].
      * rewrite lookup_insert_eq in Hn. injection Hn as <-.
        exists f0. split; [done|]. by apply list_lookup_middle.
      * rewrite lookup_insert_ne in Hn by done.
        destruct (Hcons n df Hn) as (f & Hs' & Hf). exists f. split; [done|].
        by apply lookup_app_l_Some.
    + apply lookup_insert_eq.
    + by apply insert_subseteq.
Qed.

Lemma get_records_run name sd ed cid limit st f0 :
  consistent st → stored name = Some f0 →
  ∃ ext c,
    get_records name sd ed cid limit st =
      (Ok (records (normalize f0) sd ed cid limit), Service (heap st ++ ext) c) ∧
    consistent (Service (heap st ++ ext) c) ∧
    is_Some (c !! name) ∧ cache st ⊆ c.
Proof.
  intros Hcons Hs.
  destruct (get_table_run name st f0 Hcons Hs)
    as (t & ext0 & c & Hget & Hcons1 & Ht & Hc & Hsub).
  set (base := heap st ++ ext0) in *.
  unfold get_records.
  rewrite (run_bind _ _ _ _ _ Hget).
  rewrite (run_bind _ _ _ _ _ (on_heap_get _ _ _ _ Ht)).
  rewrite (run_bind _ _ _ _ _ (on_heap_new _ _ _)).
  destruct (lands_filter_dates sd ed base [normalize f0] c (length base) (normalize f0))
    as (df1 & ext1 & H1 & Hf1 & Hle1); [by apply list_lookup_middle|done|].
  rewrite (run_bind _ _ _ _ _ H1).
  destruct (lands_filter_campaign cid base ext1 c df1 _ Hf1 Hle1)
    as (df2 & ext2 & H2 & Hf2 & Hle2).
  rewrite (run_bind _ _ _ _ _ H2).
  destruct (lands_apply_limit limit base ext2 c df2 _ Hf2 Hle2)
    as (df3 & ext3 & H3 & Hf3 & Hle3).
  rewrite (run_bind _ _ _ _ _ H3).
  destruct (to_records_run base ext3 c df3 _ Hf3 Hle3) as (ext4 & H4).
  rewrite H4, pipeline_records.
  exists (ext0 ++ ext4), c. unfold base. rewrite <- (assoc_L (++)).
  split; [done|]. split; [|by split].
  rewrite (assoc_L (++)). by apply consistent_grow.
Qed.

Lemma get_records_missing name sd ed cid limit st :
  consistent st → stored name = None →
  get_records name sd ed cid limit st = (Raise (FileNotFoundError name), st).
Proof.
  intros Hcons Hs. unfold get_records.
  rewrite (run_bind_raise _ _ _ (FileNotFoundError name) st); [done|].
  apply get_table_missing; [|done].
  destruct (cache st !! name) as [t|] eqn:Hc; [|done].
  destruct (Hcons name t Hc) as (f & Hs' & _). congruence.
Qed.

Lemma reachable_consistent st : reachable st → consistent st.
Proof.
  induction 1 as [|st name sd ed cid limit Hr IH].
  - intros name df Hc. simpl in Hc. by rewrite lookup_empty in Hc.
  - destruct (stored name) as [f0|] eqn:Hs.
    + destruct (get_records_run name sd ed cid limit st f0 IH Hs)
        as (ext & c & -> & Hcons & _). done.
    + by rewrite (get_records_missing name sd ed cid limit st IH Hs).
Qed.

Lemma date_ge_spec t (r : row) :
  date_ge t r = true ↔ ∃ d, at_ r "date" = CTime d ∧ (t ≤ d)%Z.
Proof.
  unfold date_ge. destruct (at_ r "date") as [| | | | |d]; split;
    try discriminate; try (by intros (d' & [=] & _)).
  - intros H. exists d. split; [done|]. by apply Z.leb_le.
  - intros (d' & [= <-] & H). by apply Z.leb_le.
Qed.

Lemma date_le_spec t (r : row) :
  date_le t r = true ↔ ∃ d, at_ r "date" = CTime d ∧ (d ≤ t)%Z.
Proof.
  unfold date_le. destruct (at_ r "date") as [| | | | |d]; split;
    try discriminate; try (by intros (d' & [=] & _)).
  - intros H. exists d. split; [done|]. by apply Z.leb_le.
  - intros (d' & [= <-] & H). by apply Z.leb_le.
Qed.

Lemma wanted_spec f sd ed cid (r : row) :
  wanted f sd ed cid r = true ↔
  ("date" ∈ columns f →
     (∀ t, bound sd = Some t → ∃ d, at_ r "date" = CTime d ∧ (t ≤ d)%Z) ∧
     (∀ t, bound ed = Some t → ∃ d, at_ r "date" = CTime d ∧ (d ≤ t)%Z)) ∧
  (given cid = true → "campaign_id" ∈ columns f →
     astype_str (at_ r "campaign_id") = default "" cid).
Proof.
  unfold wanted. rewrite andb_true_iff.
  assert (in_range f sd ed r = true ↔
          ("date" ∈ columns f →
             (∀ t, bound sd = Some t → ∃ d, at_ r "date" = CTime d ∧ (t ≤ d)%Z) ∧
             (∀ t, bound ed = Some t → ∃ d, at_ r "date" = CTime d ∧ (d ≤ t)%Z)))
    as ->.
  { unfold in_range, after, until, has_column.
    destruct (decide ("date" ∈ columns f)) as [Hd|Hd].
    - rewrite bool_decide_eq_true_2 by done. rewrite andb_true_iff. split.
      + intros [H1 H2] _. split; intros t Ht; rewrite Ht in *.
        * by apply date_ge_spec.
        * by apply date_le_spec.
      + intros H. destruct (H Hd) as [H1 H2]. split.
        * destruct (bound sd) as [t|]; [|done]. by apply date_ge_spec, H1.
        * destruct (bound ed) as [t|]; [|done]. by apply date_le_spec, H2.
    - rewrite bool_decide_eq_false_2 by done. by split. }
  assert (of_campaign f cid r = true ↔
          (given cid = true → "campaign_id" ∈ columns f →
             astype_str (at_ r "campaign_id") = default "" cid)) as ->; [|done].
  unfold of_campaign, campaign_is, has_column.
  destruct (given cid); simpl; [|by split].
  destruct (decide ("campaign_id" ∈ columns f)) as [Hc|Hc].
  - rewrite bool_decide_eq_true_2 by done. rewrite bool_decide_eq_true.
    split; [by intros H _ _|]. intros H. by apply H.
  - rewrite bool_decide_eq_false_2 by done. by split.
Qed.

Lemma bound_unparsable s : to_datetime (CStr s) = None → bound (Some s) = None.
Proof. intros H. unfold bound. simpl. rewrite H. by destruct (bool_decide _). Qed.

Lemma get_records_spec name sd ed cid limit st f0 :
  reachable st → stored name = Some f0 →
  ∃ st', get_records name sd ed cid limit st =
           (Ok (records (normalize f0) sd ed cid limit), st') ∧
         reachable st' ∧
         get_records name sd ed cid limit st' =
           (Ok (records (normalize f0) sd ed cid limit),
            (get_records name sd ed cid limit st').2).
Proof.
  intros Hr Hs.
  destruct (get_records_run name sd ed cid limit st f0
              (reachable_consistent _ Hr) Hs) as (ext & c & H1 & Hc1 & _).
  eexists. split; [exact H1|].
  assert (reachable (Service (heap st ++ ext) c)) as Hr'.
  { pose proof (reachable_call st name sd ed cid limit Hr) as H.
    by rewrite H1 in H. }
  split; [exact Hr'|].
  destruct (get_records_run name sd ed cid limit _ f0 Hc1 Hs) as (ext' & c' & H2 & _).
  by rewrite H2.
Qed.

(** C8: from any state the service can be in, get_records on a name with
    neither a parquet nor a csv file raises FileNotFoundError for that name
    (and returns no record list, and leaves the service as it was); on a
    name with either file it returns a record list. *)
Theorem get_records_dataset_not_found name sd ed cid limit st :
  reachable st →
  (files !! (name +:+ ".parquet") = None → files !! (name +:+ ".csv") = None →
   get_records name sd ed cid limit st = (Raise (FileNotFoundError name), st)) ∧
  (is_Some (files !! (name +:+ ".parquet")) ∨ is_Some (files !! (name +:+ ".csv")) →
   ∃ recs st', get_records name sd ed cid limit st = (Ok recs, st')).
Proof.
  intros Hr. split.
  - intros Hp Hc. apply get_records_missing; [by apply reachable_consistent|].
    unfold stored. by rewrite Hp.
  - intros Hfile. assert (is_Some (stored name)) as [f0 Hs].
    { unfold stored. destruct (files !! (name +:+ ".parquet")); [done|].
      by destruct Hfile as [[? [=]]|?]. }
    destruct (get_records_spec name sd ed cid limit st f0 Hr Hs) as (st' & H & _).
    eauto.
Qed.

(** C9: from any state the service can be in, a second get_records with
    the same parameters returns what the first returned, and the first call
    leaves every cached table where it was, with the content it had. *)
Theorem get_records_idempotent name sd ed cid limit st :
  reachable st →
  (get_records name sd ed cid limit
     (get_records name sd ed cid limit st).2).1 =
  (get_records name sd ed cid limit st).1 ∧
  (∀ n t f, cache st !! n = Some t → heap st !! t = Some f →
     cache (get_records name sd ed cid limit st).2 !! n = Some t ∧
     heap (get_records name sd ed cid limit st).2 !! t = Some f).
Proof.
  intros Hr. pose proof (reachable_consistent _ Hr) as Hcons.
  destruct (stored name) as [f0|] eqn:Hs.
  - destruct (get_records_run name sd ed cid limit st f0 Hcons Hs)
      as (ext & c & H1 & Hc1 & _ & Hsub).
    destruct (get_records_run name sd ed cid limit _ f0 Hc1 Hs) as (ext' & c' & H2 & _).
    rewrite H1. simpl. rewrite H2. simpl. split; [done|].
    intros n t f Hn Ht. split.
    + by eapply lookup_weaken.
    + by apply lookup_app_l_Some.
  - rewrite (get_records_missing name sd ed cid limit st Hcons Hs). simpl.
    rewrite (get_records_missing name sd ed cid limit st Hcons Hs). simpl.
    split; [done|]. by intros n t f Hn Ht.
Qed.

End service.

(** *** A concrete directory and concrete conversions

    Dates are read and written as YYYY-MM-DD.  Timestamps are counted in
    days on an axis that gives every month 31 days, which keeps calendar
    dates in their order. *)

Fixpoint digits (s : string) (acc : Z) : option Z :=
  match s with
  | EmptyString => Some acc
  | String a s =>
      let n := (Z.of_N (Ascii.N_of_ascii a) - 48)%Z in
      if (0 <=? n)%Z && (n <=? 9)%Z then digits s (acc * 10 + n) else None
  end.

Definition iso_day (s : string) : option Z :=
  if bool_decide (String.length s = 10 ∧ String.substring 4 1 s = "-" ∧
                  String.substring 7 1 s = "-")
  then
    y ← digits (String.substring 0 4 s) 0;
    m ← digits (String.substring 5 2 s) 0;
    d ← digits (String.substring 8 2 s) 0;
    if (1 <=? m)%Z && (m <=? 12)%Z && (1 <=? d)%Z && (d <=? 31)%Z
    then Some ((y * 12 + (m - 1)) * 31 + (d - 1))%Z else None
  else None.

Definition iso_to_datetime (c : cell) : option Z :=
  match c with
  | CStr s => iso_day s
  | CTime t => Some t
  | _ => None
  end.

Definition digit_char (n : Z) : Ascii.ascii := Ascii.ascii_of_N (Z.to_N (48 + n)).

Definition two_digits (n : Z) : string :=
  String (digit_char (n / 10)) (String (digit_char (n mod 10)) "").

Definition iso_strftime (t : Z) : string :=
  let y := (t / 372)%Z in
  let m := ((t mod 372) / 31 + 1)%Z in
  let d := (t mod 31 + 1)%Z in
  two_digits (y / 100) +:+ two_digits (y mod 100) +:+ "-" +:+
  two_digits m +:+ "-" +:+ two_digits d.

Definition plain_str (c : cell) : string :=
  match c with
  | CStr s => s
  | CInt n => pretty n
  | CBool true => "True"
  | CBool false => "False"
  | CNull => "None"
  | _ => "nan"
  end.

(** Ten days of January 2024, one row a day, dates still as text. *)
Definition january_row (day : Z) : row :=
  <["date" := CStr ("2024-01-" +:+ two_digits day)]>
  (<["campaign_id" := CInt (day mod 2)]> (<["cost" := CFloat 1]> ∅)).

Definition january : frame :=
  Frame ["date"; "campaign_id"; "cost"] (january_row <$> seqZ 1 10).

Definition disk : gmap string frame := {["campaign_daily.parquet" := january]}.

Definition serve := get_records disk iso_to_datetime iso_strftime plain_str.

(** C7: from any state the service can be in, get_records on a stored
    table returns, serialised, the first limit rows (all of them without a
    positive limit) of the rows that pass the filters, in table order.  A
    row passes when, the table having a date column, its date is not before
    the start bound and not after the end bound, a bound counting only when
    the parameter is given and parses; and when, a campaign_id being given
    and the table having that column, the text of its campaign_id equals
    it.  Of ten days 2024-01-01..10, the range 2024-01-05..07 returns the
    three days 05, 06, 07, a limit of 2 the first two of them, and a start
    date that does not parse returns all ten. *)
Theorem get_records_filters files to_datetime strftime astype_str
    name sd ed cid limit st f0 :
  (reachable files to_datetime strftime astype_str st →
   stored files name = Some f0 →
   let table := normalize to_datetime f0 in
   (∃ st', get_records files to_datetime strftime astype_str name sd ed cid limit st =
      (Ok (record strftime table <$>
             truncate limit
               (filter (λ r, wanted to_datetime astype_str table sd ed cid r)
                       (rows table))), st')) ∧
   (∀ r : row, wanted to_datetime astype_str table sd ed cid r = true ↔
      ("date" ∈ columns table →
         (∀ t, bound to_datetime sd = Some t →
               ∃ d, at_ r "date" = CTime d ∧ (t ≤ d)%Z) ∧
         (∀ t, bound to_datetime ed = Some t →
               ∃ d, at_ r "date" = CTime d ∧ (d ≤ t)%Z)) ∧
      (given cid = true → "campaign_id" ∈ columns table →
         astype_str (at_ r "campaign_id") = default "" cid)) ∧
   (∀ s, to_datetime (CStr s) = None → bound to_datetime (Some s) = None) ∧
   bound to_datetime None = None ∧
   (∀ n rs, (0 < n)%Z → truncate (Some n) rs = take (Z.to_nat n) rs) ∧
   (∀ n rs, (n ≤ 0)%Z → truncate (Some n) rs = rs) ∧
   (∀ rs, truncate None rs = rs)) ∧
  ((λ r, at_ r "date") <$>
     match (serve "campaign_daily" (Some "2024-01-05") (Some "2024-01-07") None None
              (Service [] ∅)).1 with Ok recs => recs | Raise _ => [] end
   = [CStr "2024-01-05"; CStr "2024-01-06"; CStr "2024-01-07"]) ∧
  ((λ r, at_ r "date") <$>
     match (serve "campaign_daily" (Some "2024-01-05") (Some "2024-01-07") None
              (Some 2%Z) (Service [] ∅)).1 with Ok recs => recs | Raise _ => [] end
   = [CStr "2024-01-05"; CStr "2024-01-06"]) ∧
  (length
     match (serve "campaign_daily" (Some "soon") None None None
              (Service [] ∅)).1 with Ok recs => recs | Raise _ => [] end = 10).
Proof.
  split; [|by vm_compute].
  intros Hr Hs table. split; [|split; [|split; [|split; [|split; [|split]]]]].
  - destruct (get_records_spec files to_datetime strftime astype_str
                name sd ed cid limit st f0 Hr Hs) as (st' & H & _).
    by exists st'.
  - intros r. apply wanted_spec.
  - apply bound_unparsable.
  - done.
  - intros n rs Hn. unfold truncate. by rewrite (proj2 (Z.ltb_lt 0 n) Hn).
  - intros n rs Hn. unfold truncate. by rewrite (proj2 (Z.ltb_ge 0 n) Hn).
  - done.
Qed.

Lemma get_records_filters_witness :
  ∃ st', serve "campaign_daily" (Some "2024-01-05") (Some "2024-01-07") (Some "1")
           (Some 2%Z) (Service [] ∅) =
         (Ok (record iso_strftime (normalize iso_to_datetime january) <$>
                truncate (Some 2%Z)
                  (filter (λ r, wanted iso_to_datetime plain_str
                                  (normalize iso_to_datetime january)
                                  (Some "2024-01-05") (Some "2024-01-07") (Some "1") r)
                          (rows (normalize iso_to_datetime january)))), st').
Proof.
  destruct (get_records_filters disk iso_to_datetime iso_strftime plain_str
              "campaign_daily" (Some "2024-01-05") (Some "2024-01-07") (Some "1")
              (Some 2%Z) (Service [] ∅) january) as [H _].
  destruct H as [H _]; [apply reachable_init|reflexivity|]. exact H.
Defined.

Lemma get_records_dataset_not_found_witness :
  serve "no_such_table" None None None None (Service [] ∅) =
    (Raise (FileNotFoundError "no_such_table"), Service [] ∅) ∧
  ∃ recs st', serve "campaign_daily" None None None None (Service [] ∅) = (Ok recs, st').
Proof.
  destruct (get_records_dataset_not_found disk iso_to_datetime iso_strftime plain_str
              "no_such_table" None None None None (Service [] ∅)
              (reachable_init _ _ _ _)) as [Hmiss _].
  destruct (get_records_dataset_not_found disk iso_to_datetime iso_strftime plain_str
              "campaign_daily" None None None None (Service [] ∅)
              (reachable_init _ _ _ _)) as [_ Hthere].
  split; [by apply Hmiss|]. apply Hthere. left. by eexists.
Defined.

Lemma get_records_idempotent_witness :
  (serve "campaign_daily" (Some "2024-01-05") None None (Some 3%Z)
     (serve "campaign_daily" (Some "2024-01-05") None None (Some 3%Z)
        (Service [] ∅)).2).1 =
  (serve "campaign_daily" (Some "2024-01-05") None None (Some 3%Z) (Service [] ∅)).1.
Proof.
  exact (proj1 (get_records_idempotent disk iso_to_datetime iso_strftime plain_str
                  "campaign_daily" (Some "2024-01-05") None None (Some 3%Z)
                  (Service [] ∅) (reachable_init _ _ _ _))).
Defined.

End DataService.

(** ** More about the record service (server/services/data_service.py) *)

Module DataServiceFacts.
Import Py Pandas DataService.

Section facts.
Context (files : gmap string frame).
Context (to_datetime : cell → option Z).
Context (strftime : Z → string).
Context (astype_str : cell → string).

#[local] Abbreviation can_reach := (reachable files to_datetime strftime astype_str).
#[local] Abbreviation call := (get_records files to_datetime strftime astype_str).
#[local] Abbreviation recs := (records to_datetime strftime astype_str).
#[local] Abbreviation norm := (normalize to_datetime).
#[local] Abbreviation on_disk := (stored files).
#[local] Abbreviation passes := (wanted to_datetime astype_str).

(** What a request answers depends on the directory and the parameters
    only. *)
Definition answer (name : string) (sd ed cid : option string) (limit : option Z)
  : result (list row) :=
  match on_disk name with
  | Some f0 => Ok (recs (norm f0) sd ed cid limit)
  | None => Raise (FileNotFoundError name)
  end.

Lemma get_records_answer name sd ed cid limit st :
  can_reach st → (call name sd ed cid limit st).1 = answer name sd ed cid limit.
Proof.
  intros Hr. unfold answer. destruct (on_disk name) as [f0|] eqn:Hs.
  - destruct (get_records_spec files to_datetime strftime astype_str
                name sd ed cid limit st f0 Hr Hs) as (st' & -> & _). done.
  - by rewrite (get_records_missing files to_datetime strftime astype_str
                  name sd ed cid limit st (reachable_consistent _ _ _ _ _ Hr) Hs).
Qed.

Lemma length_rows_normalize f : length (rows (norm f)) = length (rows f).
Proof.
  unfold normalize. destruct (has_column f "date"); [|done].
  by rewrite rows_setitem, length_fmap.
Qed.

Lemma columns_normalize f : columns (norm f) = columns f.
Proof.
  unfold normalize. destruct (has_column f "date") eqn:E; [|done].
  unfold setitem. simpl. by rewrite E.
Qed.

Lemma length_truncate limit (rs : list row) :
  length (truncate limit rs) ≤ length rs ∧
  ∀ n, limit = Some n → (0 < n)%Z → length (truncate limit rs) ≤ Z.to_nat n.
Proof.
  unfold truncate. destruct limit as [n|].
  - destruct (0 <? n)%Z eqn:E.
    + rewrite length_take. split; [lia|]. intros n' [= <-] _. lia.
    + split; [done|]. intros n' [= <-] Hn. apply Z.ltb_ge in E. lia.
  - split; [done|]. by intros n [=].
Qed.

Lemma recs_bounds f sd ed cid limit :
  recs f sd ed cid limit =
    record strftime f <$> truncate limit (filter (λ r, passes f sd ed cid r) (rows f)).
Proof. done. Qed.

(** The answer to a request does not depend on the requests served before
    it: from any two states the service can be in, the same parameters get
    the same answer (the same records, or the same error). *)
Theorem get_records_history_free name sd ed cid limit st1 st2 :
  can_reach st1 → can_reach st2 →
  (call name sd ed cid limit st1).1 = (call name sd ed cid limit st2).1.
Proof. intros H1 H2. by rewrite !get_records_answer. Qed.

(** Parameters that say nothing change nothing: an empty or unparsable
    start or end date, an empty campaign_id and a limit that is not
    positive each give the answer of the request without that parameter. *)
Theorem get_records_idle_parameters name sd ed cid limit st (s : string) (n : Z) :
  can_reach st →
  (s = "" ∨ to_datetime (CStr s) = None →
   (call name (Some s) ed cid limit st).1 = (call name None ed cid limit st).1 ∧
   (call name sd (Some s) cid limit st).1 = (call name sd None cid limit st).1) ∧
  (call name sd ed (Some "") limit st).1 = (call name sd ed None limit st).1 ∧
  ((n ≤ 0)%Z →
   (call name sd ed cid (Some n) st).1 = (call name sd ed cid None st).1).
Proof.
  intros Hr. rewrite !get_records_answer by done. unfold answer.
  destruct (on_disk name) as [f0|]; [|done].
  split; [|split].
  - intros Hs.
    assert (bound to_datetime (Some s) = None) as Hb.
    { destruct Hs as [->|Hs]; [done|]. by apply bound_unparsable. }
    unfold records, wanted, in_range. rewrite Hb. done.
  - done.
  - intros Hn. unfold records, truncate. by rewrite (proj2 (Z.ltb_ge 0 n) Hn).
Qed.

(** A request never returns more records than the table has rows, nor more
    than a positive limit. *)
Theorem get_records_size name sd ed cid limit st f0 rs :
  can_reach st → on_disk name = Some f0 →
  (call name sd ed cid limit st).1 = Ok rs →
  length rs ≤ length (rows f0) ∧
  (∀ n, limit = Some n → (0 < n)%Z → length rs ≤ Z.to_nat n).
Proof.
  intros Hr Hs. rewrite get_records_answer by done. unfold answer. rewrite Hs.
  intros [= <-]. unfold records. rewrite length_fmap.
  destruct (length_truncate limit
              (filter (λ r, passes (norm f0) sd ed cid r) (rows (norm f0))))
    as [Hle Hlim].
  split; [|exact Hlim].
  etrans; [exact Hle|]. rewrite <- (length_rows_normalize f0). apply length_filter.
Qed.

(** No record carries a NaN or a NaT: every missing entry of a record is
    [None]; and in a table with a date column the date of every record is a
    string or [None]. *)
Theorem get_records_no_nan name sd ed cid limit st f0 rs (rec : row) :
  can_reach st → on_disk name = Some f0 →
  (call name sd ed cid limit st).1 = Ok rs → rec ∈ rs →
  (∀ c v, rec !! c = Some v → isna v = true → v = CNull) ∧
  ("date" ∈ columns f0 → at_ rec "date" = CNull ∨ ∃ s, at_ rec "date" = CStr s).
Proof.
  intros Hr Hs. rewrite get_records_answer by done. unfold answer. rewrite Hs.
  intros [= <-]. unfold records. intros (r & -> & _)%list_elem_of_fmap.
  unfold record. split.
  - intros c v. rewrite lookup_fmap. intros (v' & _ & ->)%fmap_Some Hna.
    destruct (isna v') eqn:E; [done|]. congruence.
  - intros Hd. unfold has_column. rewrite columns_normalize.
    rewrite bool_decide_eq_true_2 by done.
    unfold at_. rewrite lookup_fmap, lookup_insert_eq. simpl.
    unfold strftime_cell. destruct (default CNull (r !! "date")); simpl; eauto.
Qed.

(** A table without a date column ignores the date range, and a table
    without a campaign_id column ignores the campaign. *)
Theorem get_records_absent_columns name sd ed cid limit st f0 :
  can_reach st → on_disk name = Some f0 →
  ("date" ∉ columns f0 →
   (call name sd ed cid limit st).1 = (call name None None cid limit st).1) ∧
  ("campaign_id" ∉ columns f0 →
   (call name sd ed cid limit st).1 = (call name sd ed None limit st).1).
Proof.
  intros Hr Hs. rewrite !get_records_answer by done. unfold answer. rewrite Hs.
  split; intros Hc; unfold records, wanted, in_range, of_campaign, has_column;
    rewrite columns_normalize; rewrite (bool_decide_eq_false_2 _ Hc).
  - done.
  - by rewrite andb_false_r.
Qed.

(** When both forms of a table are stored, the parquet one is served. *)
Theorem get_records_prefers_parquet name sd ed cid limit st f csv :
  can_reach st →
  files !! (name +:+ ".parquet") = Some f → files !! (name +:+ ".csv") = Some csv →
  (call name sd ed cid limit st).1 = Ok (recs (norm f) sd ed cid limit).
Proof.
  intros Hr Hp Hc. rewrite get_records_answer by done. unfold answer, stored.
  by rewrite Hp.
Qed.

(** A request leaves every object of the store as it was and every cache
    entry as it was; an answered request leaves its table cached, and a
    failed one changes nothing. *)
Theorem get_records_frame name sd ed cid limit st :
  can_reach st →
  heap st `prefix_of` heap (call name sd ed cid limit st).2 ∧
  cache st ⊆ cache (call name sd ed cid limit st).2 ∧
  (∀ rs, (call name sd ed cid limit st).1 = Ok rs →
         is_Some (cache (call name sd ed cid limit st).2 !! name)) ∧
  (∀ e, (call name sd ed cid limit st).1 = Raise e →
        (call name sd ed cid limit st).2 = st).
Proof.
  intros Hr. pose proof (reachable_consistent _ _ _ _ _ Hr) as Hcons.
  destruct (on_disk name) as [f0|] eqn:Hs.
  - destruct (get_records_run files to_datetime strftime astype_str
                name sd ed cid limit st f0 Hcons Hs)
      as (ext & c & -> & _ & Hin & Hsub). simpl.
    split; [by eexists|]. split; [done|]. split; [done|]. by intros e [=].
  - rewrite (get_records_missing files to_datetime strftime astype_str
               name sd ed cid limit st Hcons Hs). simpl.
    split; [done|]. split; [done|]. split; [by intros rs [=]|done].
Qed.

End facts.

Lemma get_records_idle_parameters_witness :
  (serve "campaign_daily" (Some "soon") None None None (Service [] ∅)).1 =
  (serve "campaign_daily" None None None None (Service [] ∅)).1 ∧
  (serve "campaign_daily" None None None (Some 0%Z) (Service [] ∅)).1 =
  (serve "campaign_daily" None None None None (Service [] ∅)).1.
Proof.
  destruct (get_records_idle_parameters disk iso_to_datetime iso_strftime plain_str
              "campaign_daily" None None None None (Service [] ∅) "soon" 0
              (reachable_init _ _ _ _)) as (Hdate & _ & Hlim).
  split; [by apply Hdate; right|]. by apply Hlim.
Defined.

(** A directory with a second table that has neither a date nor a
    campaign_id column, stored in both forms with different contents. *)
Definition totals_table (cost : float) : frame :=
  Frame ["cost"] [<["cost" := CFloat cost]> ∅; <["cost" := CFloat nan]> ∅].

Definition disk2 : gmap string frame :=
  <["totals.parquet" := totals_table 1]> (<["totals.csv" := totals_table 2]> disk).

Definition serve2 := get_records disk2 iso_to_datetime iso_strftime plain_str.

Definition after_one_request : service :=
  (serve2 "campaign_daily" (Some "2024-01-03") None (Some "1") None (Service [] ∅)).2.

Lemma after_one_request_reachable :
  reachable disk2 iso_to_datetime iso_strftime plain_str after_one_request.
Proof. apply reachable_call, reachable_init. Qed.

Lemma get_records_history_free_witness :
  (serve2 "totals" None None None (Some 1%Z) (Service [] ∅)).1 =
  (serve2 "totals" None None None (Some 1%Z) after_one_request).1.
Proof.
  apply get_records_history_free;
    [apply reachable_init|apply after_one_request_reachable].
Defined.

Lemma get_records_size_witness :
  ∃ rs, (serve2 "campaign_daily" (Some "2024-01-03") None None (Some 4%Z)
           (Service [] ∅)).1 = Ok rs ∧
        length rs ≤ 10 ∧ length rs ≤ 4.
Proof.
  eexists. split; [by vm_compute|].
  destruct (get_records_size disk2 iso_to_datetime iso_strftime plain_str
              "campaign_daily" (Some "2024-01-03") None None (Some 4%Z)
              (Service [] ∅) january _ (reachable_init _ _ _ _) eq_refl eq_refl)
    as [Hrows Hlim].
  split; [exact Hrows|]. by apply (Hlim 4%Z).
Defined.

Lemma get_records_no_nan_witness :
  ∃ rec, rec ∈ [<["cost" := CFloat 1]> (∅ : gmap string cell); <["cost" := CNull]> ∅] ∧
         ∀ c v, rec !! c = Some v → isna v = true → v = CNull.
Proof.
  exists (<["cost" := CNull]> ∅). split; [by right; left|].
  refine (proj1 (get_records_no_nan disk2 iso_to_datetime iso_strftime plain_str
            "totals" None None None None (Service [] ∅) (totals_table 1) _ _
            (reachable_init _ _ _ _) eq_refl _ _)).
  - by vm_compute.
  - by right; left.
Defined.

Lemma get_records_absent_columns_witness :
  (serve2 "totals" (Some "2024-01-03") None (Some "1") None (Service [] ∅)).1 =
  (serve2 "totals" None None (Some "1") None (Service [] ∅)).1 ∧
  (serve2 "totals" (Some "2024-01-03") None (Some "1") None (Service [] ∅)).1 =
  (serve2 "totals" (Some "2024-01-03") None None None (Service [] ∅)).1.
Proof.
  destruct (get_records_absent_columns disk2 iso_to_datetime iso_strftime plain_str
              "totals" (Some "2024-01-03") None (Some "1") None (Service [] ∅)
              (totals_table 1) (reachable_init _ _ _ _) eq_refl) as [Hd Hc].
  split; [apply Hd|apply Hc]; compute_done.
Defined.

Lemma get_records_prefers_parquet_witness :
  (serve2 "totals" None None None None (Service [] ∅)).1 =
  Ok (records iso_to_datetime iso_strftime plain_str
        (normalize iso_to_datetime (totals_table 1)) None None None None).
Proof.
  exact (get_records_prefers_parquet disk2 iso_to_datetime iso_strftime plain_str
           "totals" None None None None (Service [] ∅) (totals_table 1)
           (totals_table 2) (reachable_init _ _ _ _) eq_refl eq_refl).
Defined.

Lemma get_records_frame_witness :
  heap after_one_request `prefix_of`
    heap (serve2 "totals" None None None None after_one_request).2 ∧
  cache after_one_request ⊆
    cache (serve2 "totals" None None None None after_one_request).2.
Proof.
  destruct (get_records_frame disk2 iso_to_datetime iso_strftime plain_str
              "totals" None None None None after_one_request
              after_one_request_reachable) as (Hh & Hc & _).
  by split.
Defined.

End DataServiceFacts.

(** ** More about scoring (app/pages/utils/model.py) *)

Module ModelFacts.
Import Py Pandas Model.

Lemma predict_no_schema a df_features (h : list frame) :
  schema_file a = None →
  predict_with_models a df_features h =
    (Raise (FileNotFoundError "model_schema.json"), h).
Proof.
  intros Hs. unfold predict_with_models.
  erewrite run_bind_raise; [done|]. unfold load_model_schema. by rewrite Hs.
Qed.

Lemma predict_no_features a schema df_features (h : list frame) :
  schema_file a = Some schema → schema !! "features" = None →
  predict_with_models a df_features h = (Raise (KeyError "features"), h).
Proof.
  intros Hs Hf. unfold predict_with_models.
  erewrite run_bind; [|unfold load_model_schema; rewrite Hs; reflexivity].
  erewrite run_bind_raise; [done|]. unfold lift. by rewrite Hf.
Qed.

Lemma predict_no_models a schema features df_features (h : list frame) input :
  schema_file a = Some schema → schema !! "features" = Some features →
  model_files a = None → h !! df_features = Some input →
  ∃ X1 X2, predict_with_models a df_features h =
             (Raise (FileNotFoundError "artifacts/models/"), h ++ [X1; X2]).
Proof.
  intros Hs Hf Hm Hin.
  set (filled := fill features input).
  set (sel := Frame features
                ((λ r : row, filter (λ kv, kv.1 ∈ features) r) <$> rows filled)).
  exists filled, sel. unfold predict_with_models.
  erewrite run_bind; [|unfold load_model_schema; rewrite Hs; reflexivity].
  erewrite run_bind; [|unfold lift; rewrite Hf; reflexivity].
  rewrite (run_bind _ _ _ _ _ (get_run _ _ _ Hin)).
  erewrite run_bind; [|reflexivity].
  erewrite run_bind; [|by apply (for_each_fill _ _ _ input), list_lookup_middle].
  assert (<[length h := fill features input]> (h ++ [input]) = h ++ [filled]) as ->.
  { rewrite insert_app_r_alt by done. by rewrite Nat.sub_diag. }
  erewrite run_bind; [|by apply (get_run _ _ filled), list_lookup_middle].
  erewrite run_bind;
    [|unfold lift; rewrite (select_Ok features filled); [reflexivity|];
      intros c Hc; apply fill_columns; by right].
  erewrite run_bind; [|reflexivity].
  erewrite run_bind_raise; [|unfold load_models; rewrite Hm; reflexivity].
  by rewrite <- (assoc_L (++)).
Qed.

(** Scoring fails only for a missing artifact, in this order: no schema
    file (FileNotFoundError), a schema without a feature list
    (KeyError 'features'), a missing model file (FileNotFoundError).
    Whether it fails or returns, every table that existed, the input
    included, is left as it was; and it returns as soon as all three are
    there. *)
Theorem predict_with_models_outcomes a df_features (h : list frame) input :
  h !! df_features = Some input →
  h `prefix_of` (predict_with_models a df_features h).2 ∧
  (schema_file a = None →
   (predict_with_models a df_features h).1 =
     Raise (FileNotFoundError "model_schema.json")) ∧
  (∀ schema, schema_file a = Some schema → schema !! "features" = None →
   (predict_with_models a df_features h).1 = Raise (KeyError "features")) ∧
  (∀ schema features,
     schema_file a = Some schema → schema !! "features" = Some features →
     (model_files a = None →
      (predict_with_models a df_features h).1 =
        Raise (FileNotFoundError "artifacts/models/")) ∧
     (is_Some (model_files a) →
      ∃ out, (predict_with_models a df_features h).1 = Ok out)).
Proof.
  intros Hin.
  destruct (schema_file a) as [schema|] eqn:Hs.
  2:{ rewrite (predict_no_schema a df_features h Hs). simpl.
      split; [done|]. split; [done|]. split; by intros. }
  destruct (schema !! "features") as [features|] eqn:Hf.
  2:{ rewrite (predict_no_features a schema df_features h Hs Hf). simpl.
      split; [done|]. split; [done|]. split.
      - by intros ? [= <-] _.
      - intros ? ? [= <-] ?. congruence. }
  destruct (model_files a) as [models|] eqn:Hm.
  - destruct (predict_with_models_run a schema features models h df_features input
                Hs Hf Hm Hin) as (X1 & X2 & ->). simpl.
    split; [by eexists|]. split; [done|]. split.
    + intros ? [= <-] ?. congruence.
    + intros s' f' [= <-] Hf'. split; [done|]. by eexists.
  - destruct (predict_no_models a schema features df_features h input Hs Hf Hm Hin)
      as (X1 & X2 & ->). simpl.
    split; [by eexists|]. split; [done|]. split.
    + intros ? [= <-] ?. congruence.
    + intros s' f' [= <-] Hf'. split; [done|]. by intros [? [=]].
Qed.

Definition no_models : artifacts :=
  Artifacts (Some (<["features" := ["cost"; "clicks"]]> ∅)) None.

Lemma predict_with_models_outcomes_witness :
  [unscored] `prefix_of` (predict_with_models no_models 0 [unscored]).2 ∧
  (predict_with_models no_models 0 [unscored]).1 =
    Raise (FileNotFoundError "artifacts/models/").
Proof.
  destruct (predict_with_models_outcomes no_models 0 [unscored] unscored eq_refl)
    as (Hpre & _ & _ & H).
  split; [exact Hpre|].
  by apply (H (<["features" := ["cost"; "clicks"]]> ∅) ["cost"; "clicks"]).
Defined.

(** The predictions of a row depend on its declared features only: two
    inputs with the same columns whose rows agree on the declared features
    get the same two prediction columns. *)
Theorem predict_with_models_features_only a schema features (models : model * model)
    (h1 h2 : list frame) (d1 d2 : nat) (in1 in2 : frame) :
  schema_file a = Some schema → schema !! "features" = Some features →
  model_files a = Some models →
  h1 !! d1 = Some in1 → h2 !! d2 = Some in2 →
  columns in1 = columns in2 →
  Forall2 (λ r1 r2 : row, ∀ c, c ∈ features → at_ r1 c = at_ r2 c)
          (rows in1) (rows in2) →
  ∃ o1 o2 f1 f2,
    (predict_with_models a d1 h1).1 = Ok o1 ∧
    (predict_with_models a d2 h2).1 = Ok o2 ∧
    (predict_with_models a d1 h1).2 !! o1 = Some f1 ∧
    (predict_with_models a d2 h2).2 !! o2 = Some f2 ∧
    (λ r, at_ r "waste_risk_prob") <$> rows f1 =
      (λ r, at_ r "waste_risk_prob") <$> rows f2 ∧
    (λ r, at_ r "pred_future7_roas") <$> rows f1 =
      (λ r, at_ r "pred_future7_roas") <$> rows f2.
Proof.
  intros Hs Hf Hm H1 H2 Hcols Hrows.
  destruct (predict_with_models_frame a schema features models h1 d1 in1 Hs Hf Hm H1)
    as (o1 & f1 & h1' & Hr1 & _ & _ & Ho1 & _ & Hrows1 & _).
  destruct (predict_with_models_frame a schema features models h2 d2 in2 Hs Hf Hm H2)
    as (o2 & f2 & h2' & Hr2 & _ & _ & Ho2 & _ & Hrows2 & _).
  exists o1, o2, f1, f2. rewrite Hr1, Hr2. simpl.
  split; [done|]. split; [done|]. split; [done|]. split; [done|].
  rewrite Hrows1, Hrows2, <- !list_fmap_compose.
  assert (Forall2 (λ r1 r2 : row,
            feature_vector in1 features r1 = feature_vector in2 features r2)
            (rows in1) (rows in2)) as Hfv.
  { eapply Forall2_impl; [exact Hrows|]. intros r1 r2 Hr. unfold feature_vector.
    rewrite Hcols. apply list_fmap_ext. intros _ c Hc%list_elem_of_lookup_2.
    destruct (bool_decide (c ∈ columns in2)); [by apply Hr|done]. }
  split.
  - apply list_eq_Forall2, Forall2_fmap. eapply Forall2_impl; [exact Hfv|].
    intros r1 r2 Hr. simpl.
    rewrite !(at_insert_ne _ "pred_future7_roas" "waste_risk_prob") by done.
    rewrite !at_insert_eq. by rewrite Hr.
  - apply list_eq_Forall2, Forall2_fmap. eapply Forall2_impl; [exact Hfv|].
    intros r1 r2 Hr. simpl. rewrite !at_insert_eq. by rewrite Hr.
Qed.

(** The same two rows with one more column each, which is no feature. *)
Definition unscored_named : frame :=
  Frame ["cost"]
    [<["cost" := CFloat 10]> (<["note" := CStr "a"]> ∅);
     <["cost" := CFloat 20]> (<["note" := CStr "b"]> ∅)].

Lemma predict_with_models_features_only_witness :
  ∃ o1 o2 f1 f2,
    (predict_with_models constant_models 0 [unscored]).1 = Ok o1 ∧
    (predict_with_models constant_models 1 [rescored; unscored_named]).1 = Ok o2 ∧
    (predict_with_models constant_models 0 [unscored]).2 !! o1 = Some f1 ∧
    (predict_with_models constant_models 1 [rescored; unscored_named]).2 !! o2
      = Some f2 ∧
    (λ r, at_ r "waste_risk_prob") <$> rows f1 =
      (λ r, at_ r "waste_risk_prob") <$> rows f2 ∧
    (λ r, at_ r "pred_future7_roas") <$> rows f1 =
      (λ r, at_ r "pred_future7_roas") <$> rows f2.
Proof.
  apply (predict_with_models_features_only constant_models
           (<["features" := ["cost"; "clicks"]]> ∅) ["cost"; "clicks"]
           (λ _, 0.9%float, λ _, 2%float) [unscored] [rescored; unscored_named]
           0 1 unscored unscored_named eq_refl eq_refl eq_refl eq_refl eq_refl eq_refl).
  repeat constructor; intros c Hc;
    (apply elem_of_cons in Hc as [->|Hc]; [reflexivity|]);
    (apply elem_of_cons in Hc as [->|Hc]; [reflexivity|]);
    by apply not_elem_of_nil in Hc.
Defined.

End ModelFacts.

(** ** More about aggregation (app/pages/Drilldowns.py) *)

Module DrilldownsFacts.
Import Py Pandas Drilldowns.

Lemma length_remove_dups `{EqDecision A} (l : list A) :
  length (remove_dups l) ≤ length l.
Proof.
  induction l as [|x l IH]; [done|]. simpl.
  destruct (decide_rel elem_of x l); simpl; lia.
Qed.

Lemma length_group_keys key_le group_cols (rs : list row) :
  length (group_keys key_le group_cols rs) ≤ length rs.
Proof.
  unfold group_keys. rewrite merge_sort_Permutation.
  etrans; [apply length_remove_dups|].
  etrans; [apply length_filter|]. by rewrite length_fmap.
Qed.

(** aggregate_period groups by complete keys only.  A row whose key has no
    missing component lies in exactly one group; a row with a missing key
    component (None, NaN) lies in no group, so its counters are in no sum;
    and there are never more groups than rows. *)
Theorem aggregate_period_partition key_le (df : frame) (group_cols : list string) :
  (∀ r, r ∈ rows df → key_notna (key_of group_cols r) = true →
     ∃ k, k ∈ group_keys key_le group_cols (rows df) ∧
          r ∈ members group_cols k (rows df) ∧
          ∀ k', k' ∈ group_keys key_le group_cols (rows df) →
                r ∈ members group_cols k' (rows df) → k' = k) ∧
  (∀ r, r ∈ rows df → key_notna (key_of group_cols r) = false →
     ∀ k, k ∈ group_keys key_le group_cols (rows df) →
          r ∉ members group_cols k (rows df)) ∧
  (∀ agg, aggregate_period key_le df group_cols = Ok agg →
     length (rows agg) = length (group_keys key_le group_cols (rows df)) ∧
     length (rows agg) ≤ length (rows df)).
Proof.
  split; [|split].
  - intros r Hr Hk. exists (key_of group_cols r). split; [|split].
    + apply group_keys_elem. eauto.
    + unfold members. by apply list_elem_of_filter.
    + intros k' _ Hin. unfold members in Hin.
      by apply list_elem_of_filter in Hin as [<- _].
  - intros r Hr Hk k Hin Hmem. unfold members in Hmem.
    apply list_elem_of_filter in Hmem as [<- _].
    apply group_keys_elem in Hin as [Hna _]. congruence.
  - intros agg H. rewrite (aggregate_period_rows _ _ _ _ H), length_fmap.
    split; [done|]. apply length_group_keys.
Qed.

(** A row without a search term beside two rows of one term. *)
Definition term_row (term : cell) (cost : float) : row :=
  <["search_term" := term]> (<["impressions" := CFloat 10]>
  (<["clicks" := CFloat 1]> (<["cost" := CFloat cost]>
  (<["orders" := CFloat 0]> (<["sales" := CFloat 0]> ∅))))).

Definition terms : frame :=
  Frame ("search_term" :: counters)
    [term_row (CStr "shoes") 1; term_row CNull 5; term_row (CStr "shoes") 2].

Lemma aggregate_period_partition_witness :
  (∀ k, k ∈ group_keys (λ _ _, true) ["search_term"] (rows terms) →
        term_row CNull 5 ∉ members ["search_term"] k (rows terms)) ∧
  ∃ agg, aggregate_period (λ _ _, true) terms ["search_term"] = Ok agg ∧
         length (rows agg) ≤ 3 ∧
         (λ g, at_ g "cost") <$> rows agg = [CFloat 3].
Proof.
  destruct (aggregate_period_partition (λ _ _, true) terms ["search_term"])
    as (_ & Hnull & Hlen).
  split.
  - apply Hnull; [by right; left|reflexivity].
  - eexists. split; [by vm_compute|]. split; [|by vm_compute].
    by apply Hlen; vm_compute.
Defined.

(** The totals of one group, as a mapping for compute_kpis_from_totals. *)
Definition group_totals (g : row) : gmap string value :=
  list_to_map ((λ c, (c, VFloat (num g c))) <$> counters).

(** The two KPI implementations agree: compute_kpis_from_totals on the
    summed counters of a group of aggregate_period returns that group's ctr,
    cpc, cvr, acos and roas, as long as no sum is a negative zero. *)
Theorem kpis_agree_with_aggregate (ms : list row) (g : row) :
  carries ms g →
  (∀ c, c ∈ counters → (num g c =? 0)%float = true → num g c = 0%float) →
  ∃ d, Metrics.compute_kpis_from_totals (group_totals g) = Ok d ∧
       ∀ k, k ∈ ["ctr"; "cpc"; "cvr"; "acos"; "roas"] → d !! k = Some (num g k).
Proof.
  intros [(Hi & Hc & Hk & Ho & Hs) (Hctr & Hcpc & Hcvr & Hacos & Hroas)] Hz.
  assert (∀ c, c ∈ counters →
            Metrics.field (group_totals g) c = Ok (num g c)) as Hfield.
  { intros c Hc'. rewrite (Metrics.field_float _ c (num g c)).
    - destruct (num g c =? 0)%float eqn:E; [|done]. by rewrite (Hz c Hc' E).
    - unfold group_totals, counters in *. simpl.
      repeat (apply elem_of_cons in Hc' as [->|Hc']; [reflexivity|]).
      by apply not_elem_of_nil in Hc'. }
  eexists. split.
  - apply Metrics.compute_kpis_from_totals_fields; apply Hfield; compute_done.
  - intros k Hk'. unfold num.
    repeat (apply elem_of_cons in Hk' as [->|Hk']).
    + by rewrite Hctr, Hc, Hi.
    + by rewrite Hcpc, Hk, Hc.
    + by rewrite Hcvr, Ho, Hc.
    + by rewrite Hacos, Hk, Hs.
    + by rewrite Hroas, Hs, Hk.
    + by apply not_elem_of_nil in Hk'.
Qed.

(** The one group of the worked example. *)
Definition example_group : row :=
  let s := sum_row ["campaign_id"] [CStr "A"] (rows example_rows) in
  let r1 := <["ctr" := CFloat (Metrics.ratio (num s "clicks") (num s "impressions"))]> s in
  let r2 := <["cpc" := CFloat (Metrics.ratio (num r1 "cost") (num r1 "clicks"))]> r1 in
  let r3 := <["cvr" := CFloat (Metrics.ratio (num r2 "orders") (num r2 "clicks"))]> r2 in
  let r4 := <["acos" := CFloat (Metrics.ratio (num r3 "cost") (num r3 "sales"))]> r3 in
  <["roas" := CFloat (Metrics.ratio (num r4 "sales") (num r4 "cost"))]> r4.

Lemma kpis_agree_with_aggregate_witness :
  ∃ d, Metrics.compute_kpis_from_totals (group_totals example_group) = Ok d ∧
       ∀ k, k ∈ ["ctr"; "cpc"; "cvr"; "acos"; "roas"] →
            d !! k = Some (num example_group k).
Proof.
  apply (kpis_agree_with_aggregate (rows example_rows) example_group).
  - apply sum_row_carries.
  - intros c Hc. unfold counters in Hc.
    repeat (apply elem_of_cons in Hc as [->|Hc]; [by vm_compute|]).
    by apply not_elem_of_nil in Hc.
Defined.

End DrilldownsFacts.

(** ** More about the Overview page (app/pages/Overview.py) *)

Module OverviewFacts.
Import Py Pandas Overview.

(** Line 64: [td[[...]].sum(numeric_only=True)], a Series of five sums. *)
Definition headline_totals (td : frame) : result (gmap string value) :=
  t ← select counters td;
  mret (list_to_map ((λ c, (c, VFloat (column_sum c (rows t)))) <$> counters)).

(** Line 65 *)
Definition headline_kpis (td : frame) : result (gmap string float) :=
  totals ← headline_totals td; Metrics.compute_kpis_from_totals totals.

(** A sum as compute_kpis_from_totals reads it: a zero of either sign is
    read as 0. *)
Definition read (x : float) : float := if (x =? 0)%float then 0%float else x.

Lemma column_sum_select c (cols : list string) (rs : list row) :
  c ∈ cols →
  column_sum c ((λ r : row, filter (λ kv, kv.1 ∈ cols) r) <$> rs) = column_sum c rs.
Proof.
  intros Hc. unfold column_sum. f_equal. rewrite <- list_fmap_compose.
  apply list_fmap_ext. intros _ r _. simpl. unfold num.
  by rewrite Model.at_select_row.
Qed.

(** The headline KPIs of a period are the ratios of the period's column
    sums, NaN for a zero sum in the denominator; with the five counter
    columns there they always return (unlike the call of line 125 on the
    whole table), and without one of them the selection raises KeyError. *)
Theorem headline_kpis_of_sums (td : frame) :
  ((∀ c, c ∈ counters → c ∈ columns td) →
   let total c := read (column_sum c (rows td)) in
   ∃ d, headline_kpis td = Ok d ∧
     d !! "ctr" = Some (Metrics.ratio (total "clicks") (total "impressions")) ∧
     d !! "cpc" = Some (Metrics.ratio (total "cost") (total "clicks")) ∧
     d !! "cvr" = Some (Metrics.ratio (total "orders") (total "clicks")) ∧
     d !! "acos" = Some (Metrics.ratio (total "cost") (total "sales")) ∧
     d !! "roas" = Some (Metrics.ratio (total "sales") (total "cost"))) ∧
  (∀ c, c ∈ counters → c ∉ columns td → ∃ c', headline_kpis td = Raise (KeyError c')).
Proof.
  split.
  - intros Hcols total. unfold headline_kpis, headline_totals.
    rewrite (Model.select_Ok counters td Hcols). simpl.
    rewrite !column_sum_select by compute_done.
    eexists. split.
    + apply Metrics.compute_kpis_from_totals_fields;
        (eapply Metrics.field_float; reflexivity).
    + by repeat split.
  - intros c Hc Hn. unfold headline_kpis, headline_totals, select, first_missing.
    destruct (filter (λ c, c ∉ columns td) counters) as [|c' l] eqn:E.
    + exfalso. assert (c ∈ filter (λ c, c ∉ columns td) counters) as Hin
        by by apply list_elem_of_filter.
      rewrite E in Hin. by apply not_elem_of_nil in Hin.
    + by exists c'.
Qed.

(** A period with impressions and clicks but neither cost nor sales. *)
Definition quiet_days : frame :=
  Frame ("date" :: counters)
    [<["date" := CStr "2024-01-01"]> (<["impressions" := CFloat 100]>
       (<["clicks" := CFloat 4]> (<["cost" := CFloat 0]>
       (<["orders" := CFloat 0]> (<["sales" := CFloat 0]> ∅)))));
     <["date" := CStr "2024-01-02"]> (<["impressions" := CFloat 300]>
       (<["clicks" := CFloat 12]> (<["cost" := CFloat 0]>
       (<["orders" := CFloat 0]> (<["sales" := CFloat 0]> ∅)))))].

Lemma headline_kpis_of_sums_witness :
  ∃ d, headline_kpis quiet_days = Ok d ∧
       d !! "ctr" = Some 0.04%float ∧ d !! "roas" = Some nan.
Proof.
  destruct (headline_kpis_of_sums quiet_days) as [H _].
  destruct H as (d & Hd & Hctr & _ & _ & _ & Hroas).
  - intros c Hc. by right.
  - exists d. split; [exact Hd|]. split; [by rewrite Hctr|by rewrite Hroas].
Defined.

(** The campaign block of the page (lines 113-139) never produces its
    table: on every input it raises, and with the campaign columns and the
    five counters there the exception is the ValueError of line 125. *)
Theorem campaign_table_always_raises key_le (cd : frame) (zero_sales_threshold : float) :
  (∃ e, campaign_table key_le cd zero_sales_threshold = Raise e) ∧
  ((∀ c, c ∈ campaign_columns → c ∈ columns cd) →
   campaign_table key_le cd zero_sales_threshold = Raise ValueError).
Proof.
  split; [|apply campaign_table_raises].
  destruct (campaign_table key_le cd zero_sales_threshold) as [agg|e] eqn:E.
  - by apply campaign_table_never_returns in E.
  - by exists e.
Qed.

Lemma campaign_table_always_raises_witness :
  campaign_table (λ _ _, true) campaigns_30_70 1 = Raise ValueError.
Proof.
  apply (campaign_table_always_raises (λ _ _, true) campaigns_30_70 1).
  intros c Hc. exact Hc.
Defined.

End OverviewFacts.

(** ** More about the Recommendations page (app/pages/Recommendations.py) *)

Module RecommendationsFacts.
Import Py Pandas Recommendations.

(** A mask is one Python truth value for the whole table, or one truth
    value per row (a boolean Series). *)
Inductive mask : Type :=
  | Scalar (b : bool)
  | Rowwise (m : row → bool).

(** An entry [== True] *)
Definition is_true (c : cell) : bool :=
  match c with
  | CBool b => b
  | CInt n => (n =? 1)%Z
  | CFloat x => (x =? 1)%float
  | _ => false
  end.

(** [scored.get(c, False) == True] *)
Definition flag (scored : frame) (c : string) : mask :=
  if has_column scored c then Rowwise (λ r, is_true (at_ r c)) else Scalar false.

(** [a | b] and [a & b] *)
Definition mask_or (a b : mask) : mask :=
  match a, b with
  | Scalar x, Scalar y => Scalar (x || y)
  | Scalar x, Rowwise m => Rowwise (λ r, x || m r)
  | Rowwise m, Scalar y => Rowwise (λ r, m r || y)
  | Rowwise m, Rowwise m' => Rowwise (λ r, m r || m' r)
  end.

Definition mask_and (a b : mask) : mask :=
  match a, b with
  | Scalar x, Scalar y => Scalar (x && y)
  | Scalar x, Rowwise m => Rowwise (λ r, x && m r)
  | Rowwise m, Scalar y => Rowwise (λ r, m r && y)
  | Rowwise m, Rowwise m' => Rowwise (λ r, m r && m' r)
  end.

(** [scored[mask]]: a Series selects rows; a bare [False] is looked up as a
    column label, which no table has. *)
Definition getitem (scored : frame) (m : mask) : result frame :=
  match m with
  | Rowwise m => Ok (getitem_mask m scored)
  | Scalar b => Raise (KeyError (if b then "True" else "False"))
  end.

(** Lines 44-50 *)
Definition waste (scored : frame) (min_spend waste_prob_cutoff : float) : result frame :=
  match first_missing scored ["cost"; "waste_risk_prob"] with
  | Some c => Raise (KeyError c)
  | None =>
      getitem scored
        (mask_and (Rowwise (λ r, (min_spend <=? num r "cost")%float))
           (mask_or (flag scored "zero_sales_spend_flag")
              (Rowwise (λ r, (waste_prob_cutoff <=? num r "waste_risk_prob")%float))))
  end.

(** Lines 58-62 *)
Definition spikes (scored : frame) : result frame :=
  getitem scored
    (mask_or (mask_or (flag scored "cost_spike") (flag scored "acos_spike"))
             (flag scored "sales_spike")).

(** Row [a] may stand before row [b] when sorting by [[k1, k2]], both
    descending. *)
Definition before_by (k1 k2 : string) (a b : row) : bool :=
  match desc_cmp (num a k1) (num b k1) with
  | Lt => true
  | Gt => false
  | Eq => match desc_cmp (num a k2) (num b k2) with
          | Gt => false
          | _ => true
          end
  end.

(** [df.sort_values([k1, k2], ascending=[False, False])] *)
Definition sort_desc (k1 k2 : string) (df : frame) : result frame :=
  match first_missing df [k1; k2] with
  | Some c => Raise (KeyError c)
  | None => Ok (Frame (columns df) (merge_sort (λ a b, before_by k1 k2 a b) (rows df)))
  end.

(** Lines 77-85: nothing to show for an empty selection; otherwise the
    sorted selection, cut to the columns of the table shown. *)
Definition waste_view (waste : frame) : result (option frame) :=
  match rows waste with
  | [] => Ok None
  | _ =>
      sorted ← sort_desc "waste_risk_prob" "cost" waste;
      w ← select ["campaign_name"; "cost"; "sales"; "orders"; "roas"; "acos";
                  "waste_risk_prob"; "zero_sales_spend_flag"] sorted;
      mret (Some w)
  end.

(** Lines 114-122, likewise for the scale candidates. *)
Definition scale_view (scale : frame) : result (option frame) :=
  match rows scale with
  | [] => Ok None
  | _ =>
      sorted ← sort_scale scale;
      s ← select ["campaign_name"; "cost"; "sales"; "orders"; "roas"; "acos";
                  "pred_future7_roas"; "spend_share_total"; "sales_share_total"] sorted;
      mret (Some s)
  end.

Definition flagged (scored : frame) (c : string) (r : row) : Prop :=
  c ∈ columns scored ∧ is_true (at_ r c) = true.

Lemma flag_rowwise scored c :
  c ∈ columns scored → flag scored c = Rowwise (λ r, is_true (at_ r c)).
Proof. intros H. unfold flag, has_column. by rewrite bool_decide_eq_true_2. Qed.

Lemma flag_scalar scored c : c ∉ columns scored → flag scored c = Scalar false.
Proof. intros H. unfold flag, has_column. by rewrite bool_decide_eq_false_2. Qed.

Lemma flag_cases scored c :
  (flag scored c = Scalar false ∧ ∀ r, ¬ flagged scored c r) ∨
  (flag scored c = Rowwise (λ r, is_true (at_ r c)) ∧
   ∀ r, flagged scored c r ↔ is_true (at_ r c) = true).
Proof.
  destruct (decide (c ∈ columns scored)) as [H|H].
  - right. split; [by apply flag_rowwise|]. intros r. unfold flagged. tauto.
  - left. split; [by apply flag_scalar|]. intros r [? _]. done.
Qed.

End RecommendationsFacts.
